(** * geo-service: query composition, response correlation, incremental
      region search and historical date windows

    A shallow embedding of the search core of the geo-service repository
    (src/search/OpenMeteoApiUtils.cc, src/search/OverpassApiUtils.cc,
    src/search/SearchEngine.cc) and the properties of its specification.

    Part I holds the definitions, one module per translation unit, then
    the parts of a regions request, the loaders and the city search, and
    the weather request and response.
    Part II holds the lemmas and theorems.

    Conventions of the embedding:
    - a [double] is the rational it denotes (type [Q]), and arithmetic on
      doubles is the arithmetic of these rationals: rounding is left out;
      formatting a double with std::format is a function taken from the
      environment;
    - a calendar year is the short a std::chrono::year holds, an integer
      of [Z] kept in [-32768, 32767] by wrapping around; months, days and
      day counts are in [Z]; the [uint32] year count is in [N];
    - the [int] std::atoi returns is the number written cut to 32 bits,
      as glibc computes it;
    - RAPIDJSON_ASSERT is an outcome of its own, [AssertionFailed];
    - the web clients are the functions answering this invocation's calls,
      and every call is recorded in the session state;
    - LOG statements have no effect on results and are left out. *)

From Stdlib Require Import ZArith QArith List Sorted Bool Lia.
From Stdlib Require Import Ascii String DecimalString.
From Stdlib Require DecimalPos.
Import ListNotations.

Open Scope Z_scope.

(* ================================================================== *)
(** * Part I: definitions *)
(* ================================================================== *)

(** ** Outcomes of code that can trip an assertion *)

Inductive outcome (A : Type) : Type :=
| Returned (a : A)
| AssertionFailed.

Arguments Returned {A} a.
Arguments AssertionFailed {A}.

Definition obind {A B} (o : outcome A) (k : A -> outcome B) : outcome B :=
  match o with
  | Returned a => k a
  | AssertionFailed => AssertionFailed
  end.

(** ** std::chrono calendar types, as far as the code uses them *)

Module Chrono.

(** std::chrono::year_month_day: three fields, compared field by field.
    The year is a short; the month and the day are small unsigned numbers,
    on which the code does no arithmetic of its own. *)
Record year_month_day : Type := ymd { year : Z; month : Z; day : Z }.

(** sys_days: a count of days since 1970-01-01. *)
Definition sys_days : Type := Z.

(** The years a short holds. *)
Definition in_short (y : Z) : Prop := -32768 <= y <= 32767.

(** year::year(int): the value is stored in a short, so a value outside
    [-32768, 32767] wraps around (the conversion is modular). *)
Definition to_short (y : Z) : Z := (y + 32768) mod 65536 - 32768.

(** year::ok() and month::ok(). *)
Definition year_ok (y : Z) : bool := (-32767 <=? y) && (y <=? 32767).

Definition month_ok (m : Z) : bool := (1 <=? m) && (m <=? 12).

(** Conversion year_month_day -> sys_days (days from civil), which the
    standard specifies for a year and a month that are ok().  For a field
    triple that is not a date of the calendar it asks for
    sys_days(y/m/1) + (d - 1), which this formula gives as well, being
    linear in the day. *)
Definition to_sys_days (d : year_month_day) : sys_days :=
  let y := if month d <=? 2 then year d - 1 else year d in
  let era := y / 400 in
  let yoe := y - era * 400 in
  let mp := if 2 <? month d then month d - 3 else month d + 9 in
  let doy := (153 * mp + 2) / 5 + day d - 1 in
  let doe := yoe * 365 + yoe / 4 - yoe / 100 + doy in
  era * 146097 + doe - 719468.

(** The date of the calendar a day count names (civil from days), with
    its year as an integer. *)
Definition civil_from_days (z0 : sys_days) : year_month_day :=
  let z := z0 + 719468 in
  let era := z / 146097 in
  let doe := z - era * 146097 in
  let yoe := (doe - doe / 1460 + doe / 36524 - doe / 146096) / 365 in
  let y := yoe + era * 400 in
  let doy := doe - (365 * yoe + yoe / 4 - yoe / 100) in
  let mp := (5 * doy + 2) / 153 in
  let d := doy - (153 * mp + 2) / 5 + 1 in
  let m := if mp <? 10 then mp + 3 else mp - 9 in
  ymd (if m <=? 2 then y + 1 else y) m d.

(** Conversion sys_days -> year_month_day: the year found is stored in a
    year, hence in a short. *)
Definition from_sys_days (z : sys_days) : year_month_day :=
  let d := civil_from_days z in
  ymd (to_short (year d)) (month d) (day d).

(** operator< and operator<= of year_month_day: lexicographic. *)
Definition ymd_ltb (a b : year_month_day) : bool :=
  (year a <? year b)
  || ((year a =? year b)
      && ((month a <? month b) || ((month a =? month b) && (day a <? day b)))).

Definition ymd_leb (a b : year_month_day) : bool :=
  (year a <? year b)
  || ((year a =? year b)
      && ((month a <? month b) || ((month a =? month b) && (day a <=? day b)))).

(** operator-=(years): year{int(y) - k} with the month and the day kept;
    the new year is stored in a short. *)
Definition minus_years (d : year_month_day) (k : Z) : year_month_day :=
  ymd (to_short (year d - k)) (month d) (day d).

End Chrono.

(** ** OpenMeteoApiUtils.cc *)

Module OpenMeteo.
Import Chrono.

Abbreviation Date := year_month_day.
Definition DateRange : Type := (Date * Date)%type.

Definition oneYear : Z := 1.

(** One calendar year back, for both ends of a range. *)
Definition year_back (w : DateRange) : DateRange :=
  (minus_years (fst w) oneYear, minus_years (snd w) oneYear).

(** "Start from current year": the candidate range before the loop. *)
Definition anchor (dateRange : DateRange) (latestDate : Date) : DateRange :=
  let '(startDate, endDate) := dateRange in
  let numDays := to_sys_days endDate - to_sys_days startDate in
  let startDate := ymd (year latestDate) (month startDate) (day startDate) in
  let endDate := from_sys_days (to_sys_days startDate + numDays) in
  (startDate, endDate).

(** "If current date is less or equal to end date, go back one year":
    the while loop, for at most [turns] tests of its condition.  [None]
    says that the loop has not stopped by then. *)
Fixpoint go_back (turns : nat) (latestDate : Date) (w : DateRange) : option DateRange :=
  match turns with
  | O => None
  | S t => if ymd_leb latestDate (snd w) then go_back t latestDate (year_back w) else Some w
  end.

(** As many turns as a short has values: after them the years of the
    range are back where they began, so a loop that has not stopped does
    not stop (lemma [go_back_never_stops]). *)
Definition all_years : nat := Z.to_nat 65536.

(** "Collect past ranges starting from the most recent one": the for loop,
    [n] turns. *)
Fixpoint collect (n : nat) (w : DateRange) : list DateRange :=
  match n with
  | O => []
  | S k => w :: collect k (year_back w)
  end.

(** CollectHistoricalRanges; [latestDate] is TimePointToDate(latestTime).
    [None] stands for a call that does not return, its while loop turning
    for ever. *)
Definition CollectHistoricalRanges
  (dateRange : DateRange) (latestDate : Date) (numYears : N) : option (list DateRange) :=
  match go_back all_years latestDate (anchor dateRange latestDate) with
  | Some w => Some (collect (N.to_nat (N.max 1 numYears)) w)
  | None => None
  end.

(** Length of a range in days. *)
Definition span (w : DateRange) : Z := to_sys_days (snd w) - to_sys_days (fst w).

(** A range moved back [k] times by the code's [-= oneYear]. *)
Fixpoint years_back (k : nat) (w : DateRange) : DateRange :=
  match k with
  | O => w
  | S k' => years_back k' (year_back w)
  end.

(** A range [k] calendar years earlier, in the words of the
    specification: both years lowered by [k], months and days kept. *)
Definition earlier (k : Z) (w : DateRange) : DateRange :=
  (ymd (year (fst w) - k) (month (fst w)) (day (fst w)),
   ymd (year (snd w) - k) (month (snd w)) (day (snd w))).


(** A date std::chrono converts to a day count: its year and its month
    are ok(). *)
Definition convertible (d : Date) : bool := year_ok (year d) && month_ok (month d).

(** The first and the last day a year_month_day can name. *)
Definition first_day : sys_days := to_sys_days (ymd (-32767) 1 1).
Definition last_day : sys_days := to_sys_days (ymd 32767 12 31).

(** The day on which the candidate range ends. *)
Definition candidate_end_day (dateRange : DateRange) (latestDate : Date) : sys_days :=
  to_sys_days (ymd (year latestDate) (month (fst dateRange)) (day (fst dateRange)))
  + (to_sys_days (snd dateRange) - to_sys_days (fst dateRange)).

(** The inputs on which std::chrono specifies every conversion the
    function makes: both dates of the range are convertible, the year of
    the latest date is ok(), and the candidate range ends on a day a
    year_month_day can name. *)
Definition within_chrono_range (dateRange : DateRange) (latestDate : Date) : bool :=
  convertible (fst dateRange) && convertible (snd dateRange)
  && year_ok (year latestDate)
  && (first_day <=? candidate_end_day dateRange latestDate)
  && (candidate_end_day dateRange latestDate <=? last_day).

End OpenMeteo.

(** ** rapidjson values and the JSON access helpers *)

Module Json.

Open Scope string_scope.

(** rapidjson::Value.  Members of an object are kept in document order. *)
#[local] Unset Elimination Schemes.
Inductive Value : Type :=
| kNull
| kBool (b : bool)
| kInt (z : Z)
| kDouble (q : Q)
| kString (s : string)
| kArray (items : list Value)
| kObject (members : list (string * Value)).
#[local] Set Elimination Schemes.

Definition IsNull (v : Value) : bool :=
  match v with kNull => true | _ => false end.

Definition IsObject (v : Value) : bool :=
  match v with kObject _ => true | _ => false end.

(** FindMember: the first member carrying the name. *)
Fixpoint FindMember (members : list (string * Value)) (name : string) : option Value :=
  match members with
  | [] => None
  | (k, v) :: rest => if String.eqb k name then Some v else FindMember rest name
  end.

(** operator[] with a name: RAPIDJSON_ASSERT(IsObject()), and
    RAPIDJSON_ASSERT(false) when no member carries the name. *)
Definition member (v : Value) (name : string) : outcome Value :=
  match v with
  | kObject members =>
      match FindMember members name with
      | Some x => Returned x
      | None => AssertionFailed
      end
  | _ => AssertionFailed
  end.

(** GetArray: RAPIDJSON_ASSERT(IsArray()). *)
Definition GetArray (v : Value) : outcome (list Value) :=
  match v with
  | kArray items => Returned items
  | _ => AssertionFailed
  end.

(** Value::GetString: RAPIDJSON_ASSERT(IsString()). *)
Definition Value_GetString (v : Value) : outcome string :=
  match v with
  | kString s => Returned s
  | _ => AssertionFailed
  end.

(** Modelled from the spec: json::Get of utils/JsonUtils.h, one of the
    "generic JSON-value access helpers", which is not under src/.  It yields
    the named member, and a null value when there is none, as the test
    [!id.IsNull()] of its caller expects. *)
Definition Get (v : Value) (name : string) : Value :=
  match v with
  | kObject members =>
      match FindMember members name with
      | Some x => x
      | None => kNull
      end
  | _ => kNull
  end.

(** Modelled from the spec: json::GetString of utils/JsonUtils.h, not under
    src/: the text of a string value, the empty text for any other value. *)
Definition GetString (v : Value) : string :=
  match v with
  | kString s => s
  | _ => EmptyString
  end.

(** Modelled from the spec: json::GetInt64 of utils/JsonUtils.h, not under
    src/: the number of an integer value, 0 for any other value. *)
Definition GetInt64 (v : Value) : Z :=
  match v with
  | kInt z => z
  | _ => 0
  end.

(** Modelled from the spec: json::GetDouble of utils/JsonUtils.h, not under
    src/: the number of a numeric value, 0 for any other value. *)
Definition GetDouble (v : Value) : Q :=
  match v with
  | kDouble q => q
  | kInt z => inject_Z z
  | _ => 0%Q
  end.

End Json.

(** ** OverpassApiUtils.h and OverpassApiUtils.cc *)

Module Overpass.
Import Json.

Open Scope string_scope.

Definition OsmId : Type := Z.
Definition OsmIds : Type := list OsmId.

(** std::map<std::string, std::string>, as the list of its entries. *)
Definition TagMap : Type := list (string * string).

Record OsmNode : Type := mkOsmNode { lat : Q; lon : Q; tags : TagMap }.

Definition OsmNodes : Type := list OsmNode.

(** [m[k] = v] on a std::map: the entry of [k] is replaced, or added. *)
Fixpoint map_assign (m : TagMap) (k v : string) : TagMap :=
  match m with
  | [] => [(k, v)]
  | (k', v') :: rest =>
      if String.eqb k' k then (k, v) :: rest else (k', v') :: map_assign rest k v
  end.

Definition is_empty (s : string) : bool :=
  match s with EmptyString => true | _ => false end.

(** The loop of ExtractRelationIds over the elements. *)
Fixpoint relation_ids (elements : list Value) : OsmIds :=
  match elements with
  | [] => []
  | e :: rest =>
      let id := Get e "id" in
      if negb (IsNull id) && String.eqb (GetString (Get e "type")) "relation"
      then GetInt64 id :: relation_ids rest
      else relation_ids rest
  end.

(** An element typed "relation", and an element carrying a non-null id. *)
Definition is_relation (e : Value) : bool :=
  String.eqb (GetString (Get e "type")) "relation".

Definition has_id (e : Value) : bool := negb (IsNull (Get e "id")).

Definition id_of (e : Value) : OsmId := GetInt64 (Get e "id").

(** The inner loop of ExtractNodes over the members of "tags". *)
Fixpoint copy_tags (members : list (string * Value)) (acc : TagMap) : outcome TagMap :=
  match members with
  | [] => Returned acc
  | (name, value) :: rest =>
      obind (Value_GetString value) (fun s => copy_tags rest (map_assign acc name s))
  end.

Definition node_of (e : Value) : outcome OsmNode :=
  let tagsObj := Get e "tags" in
  obind (match tagsObj with
         | kObject members => copy_tags members []
         | _ => Returned []
         end)
        (fun t => Returned (mkOsmNode (GetDouble (Get e "lat")) (GetDouble (Get e "lon")) t)).

(** The outer loop of ExtractNodes over the elements. *)
Fixpoint nodes_of (elements : list Value) : outcome OsmNodes :=
  match elements with
  | [] => Returned []
  | e :: rest =>
      if negb (String.eqb (GetString (Get e "type")) "node")
      then nodes_of rest
      else obind (node_of e) (fun n => obind (nodes_of rest) (fun ns => Returned (n :: ns)))
  end.

Section WithParser.

(** rapidjson::Document::Parse, from the library: the document of a text.
    After a parse error the document is left a null value. *)
Variable Parse : string -> Value.

Definition ExtractRelationIds (json : string) : outcome OsmIds :=
  if is_empty json then Returned []
  else
    let document := Parse json in
    if negb (IsObject document) then Returned []
    else
      obind (member document "elements") (fun elements =>
      obind (GetArray elements) (fun items =>
      Returned (relation_ids items))).

Definition ExtractNodes (json : string) : outcome OsmNodes :=
  if is_empty json then Returned []
  else
    let document := Parse json in
    if negb (IsObject document) then Returned []
    else
      obind (member document "elements") (fun elements =>
      obind (GetArray elements) (fun items =>
      nodes_of items)).

End WithParser.

End Overpass.

(** ** SearchEngine.cc *)

Module SearchEngine.
Import Overpass.

Open Scope string_scope.

(** *** Texts of the Overpass QL requests *)

(** The double-quote character of the C++ literals. *)
Definition dq : string := String (ascii_of_nat 34) EmptyString.

Definition quoted (s : string) : string := dq ++ s ++ dq.

Definition sz_requestHeader : string := "[out:json][timeout:180];".
Definition sz_requestFooter : string := ";out tags;".

(** std::format(sz_requestRelationsByNodes, a0, a1, a2, a3, a4). *)
Definition requestRelationsByNodes (a0 a1 a2 a3 a4 : string) : string :=
  a0 ++ " -> " ++ a1 ++ ";"
  ++ a1 ++ " is_in -> " ++ a2 ++ ";"
  ++ "rel(pivot" ++ a2 ++ ")" ++ a3 ++ " -> " ++ a4 ++ ";".

(** std::format(sz_nodeAirportsDef, bbox). *)
Definition nodeAirportsDef (bbox : string) : string :=
  "("
  ++ "nwr[" ++ quoted "aeroway" ++ "=" ++ quoted "aerodrome" ++ "]["
     ++ quoted "aerodrome:type" ++ "=" ++ quoted "international" ++ "](" ++ bbox ++ ");"
  ++ "nwr[" ++ quoted "aerodrome" ++ "=" ++ quoted "international" ++ "](" ++ bbox ++ ");"
  ++ ") -> .outA;"
  ++ ".outA > -> .outA;"
  ++ "node.outA".

(** std::format("{}", int). *)
Definition format_int (z : Z) : string := NilZero.string_of_int (Z.to_int z).

(** std::format(sz_nodePeaksDef, bbox, heightMeters). *)
Definition nodePeaksDef (bbox : string) (heightMeters : Z) : string :=
  "node[natural=peak][name](" ++ bbox ++ ")(if: is_number(t[" ++ quoted "ele"
  ++ "]) && number(t[" ++ quoted "ele" ++ "]) > " ++ format_int heightMeters ++ ")".

(** std::format(sz_nodeSeaBeachesDef, bbox). *)
Definition nodeSeaBeachesDef (bbox : string) : string :=
  "way[natural=coastline](" ++ bbox ++ ") -> .coastlines;"
  ++ "node(around.coastlines:100)[natural=beach]".

(** std::format(sz_nodeSaltLakesDef, bbox). *)
Definition nodeSaltLakesDef (bbox : string) : string :=
  "wr[natural=water][water=lake][salt=no][name](" ++ bbox ++ ") -> .outL;"
  ++ ".outL > -> .outL;"
  ++ "node.outL(" ++ bbox ++ ")".

Definition sz_regionsTags : string := "[boundary=administrative][admin_level=4]".

Definition sz_relAirports : string := ".relA".
Definition sz_relPeaks : string := ".relP".
Definition sz_relSeaBeaches : string := ".relS".
Definition sz_relSaltLakes : string := ".relL".

(** *** std::atoi *)

Definition isspace (c : ascii) : bool :=
  let n := nat_of_ascii c in
  Nat.eqb n 32 || (Nat.leb 9 n && Nat.leb n 13).

Definition digit_of (c : ascii) : option Z :=
  let n := nat_of_ascii c in
  if Nat.leb 48 n && Nat.leb n 57 then Some (Z.of_nat n - 48) else None.

Fixpoint skip_spaces (s : string) : string :=
  match s with
  | String c rest => if isspace c then skip_spaces rest else s
  | EmptyString => s
  end.

Fixpoint digits_value (s : string) (acc : Z) : Z :=
  match s with
  | String c rest =>
      match digit_of c with
      | Some d => digits_value rest (10 * acc + d)
      | None => acc
      end
  | EmptyString => acc
  end.

(** The number std::atoi reads: leading white space, an optional sign,
    then digits up to the first other character; 0 when there is no
    digit. *)
Definition written_number (s : string) : Z :=
  match skip_spaces s with
  | String "-" rest => - digits_value rest 0
  | String "+" rest => digits_value rest 0
  | t => digits_value t 0
  end.

(** strtol: a number outside the range of a long becomes LONG_MIN or
    LONG_MAX. *)
Definition to_long (z : Z) : Z := Z.max (- 2 ^ 63) (Z.min z (2 ^ 63 - 1)).

(** The conversion of a long to an int keeps the low 32 bits. *)
Definition to_int (z : Z) : Z := (z + 2 ^ 31) mod 2 ^ 32 - 2 ^ 31.

(** std::atoi.  The C standard leaves a number that does not fit an int
    undefined; glibc computes (int) strtol(s, NULL, 10), which the model
    follows. *)
Definition atoi (s : string) : Z := to_int (to_long (written_number s)).

(** *** Types of SearchEngineItf.h, GeoUtils.h and NominatimApiUtils.h,
        read off their uses *)

(** BoundingBox: four doubles, read by index 0..3. *)
Record BoundingBox : Type := mkBoundingBox { at0 : Q; at1 : Q; at2 : Q; at3 : Q }.

(** ISearchEngine::RegionPreferences: the mask [objects] and the map
    [properties], as the list of its entries. *)
Record RegionPreferences : Type :=
  mkRegionPreferences { objects : Z; properties : list (string * string) }.

(** properties.find(key): [None] stands for end(). *)
Fixpoint find (m : list (string * string)) (key : string) : option string :=
  match m with
  | [] => None
  | (k, v) :: rest => if String.eqb k key then Some v else find rest key
  end.

(** nominatim::RelationInfo. *)
Record RelationInfo : Type :=
  mkRelationInfo { osm_id : OsmId; name : string; country : string;
                   latitude : Q; longitude : Q }.

Definition RelationInfos : Type := list RelationInfo.

(** GeoProtoPlace, with the fields toGeoProtoPlace sets. *)
Record GeoProtoPlace : Type :=
  mkGeoProtoPlace { place_name : string; place_country : string;
                    center_latitude : Q; center_longitude : Q }.

Definition GeoProtoPlaces : Type := list GeoProtoPlace.

Definition toGeoProtoPlace (info : RelationInfo) : GeoProtoPlace :=
  mkGeoProtoPlace (name info) (country info) (latitude info) (longitude info).

(** *** What the translation unit takes from outside *)

(** The enumerators of geoproto::RegionsRequest::Preferences (generated
    code), std::format for a double, GetBoundingBoxDimensionsKm of
    utils/GeoUtils.h and the JSON parser. *)
Record Externals : Type := mkExternals {
  GEOGRAPHICAL_FEATURE_INTERNATIONAL_AIRPORTS : Z;
  GEOGRAPHICAL_FEATURE_PEAKS : Z;
  GEOGRAPHICAL_FEATURE_SEA_BEACHES : Z;
  GEOGRAPHICAL_FEATURE_SALT_LAKES : Z;
  format_double : Q -> string;
  GetBoundingBoxDimensionsKm : BoundingBox -> Q * Q;
  Parse : string -> Json.Value
}.

(** The two collaborators, as they answer during one invocation:
    WebClient::Post of the Overpass client and
    nominatim::LookupRelationInformation. *)
Record Collaborators : Type := mkCollaborators {
  Post : string -> string;
  LookupRelationInformation : OsmIds -> RelationInfos
}.

(** [mask & flag] read as a condition. *)
Definition has (mask flag : Z) : bool := negb (Z.land mask flag =? 0)%Z.

(** *** std::set<OsmId>, std::sort and std::set_difference *)

(** A std::set is the strictly increasing list of its elements. *)
Definition IdSet : Type := list OsmId.

Fixpoint set_insert (x : OsmId) (s : IdSet) : IdSet :=
  match s with
  | [] => [x]
  | y :: rest =>
      if (x <? y)%Z then x :: s
      else if (y <? x)%Z then y :: set_insert x rest
      else s
  end.

(** processed.insert(first, last). *)
Definition set_insert_range (ids : OsmIds) (s : IdSet) : IdSet :=
  fold_left (fun acc x => set_insert x acc) ids s.

Fixpoint sorted_insert (x : OsmId) (l : OsmIds) : OsmIds :=
  match l with
  | [] => [x]
  | y :: rest => if (x <=? y)%Z then x :: l else y :: sorted_insert x rest
  end.

(** std::sort on a vector of ids: the ascending rearrangement. *)
Definition sort (l : OsmIds) : OsmIds := fold_right sorted_insert [] l.

(** std::set_difference on two ascending ranges, with its two cursors. *)
Fixpoint set_difference (l1 : OsmIds) : OsmIds -> OsmIds :=
  fix scan (l2 : OsmIds) : OsmIds :=
    match l1, l2 with
    | [], _ => []
    | _, [] => l1
    | x :: rest1, y :: rest2 =>
        if (x <? y)%Z then x :: set_difference rest1 l2
        else if (y <? x)%Z then scan rest2
        else set_difference rest1 rest2
    end.

(** *** The session state and the computations over it *)

Inductive Call : Type :=
| PostCall (request : string)
| LookupCall (ids : OsmIds).

(** [processed] is the set the handler of StartFindRegions captures;
    [calls] lists the calls made to the collaborators, oldest first. *)
Record Session : Type := mkSession { processed : IdSet; calls : list Call }.

(** A computation reads and updates the session, and returns unless an
    assertion fails. *)
Definition M (A : Type) : Type := Session -> outcome (A * Session).

Definition ret {A} (a : A) : M A := fun s => Returned (a, s).

Definition bind {A B} (m : M A) (k : A -> M B) : M B :=
  fun s =>
    match m s with
    | Returned (a, s') => k a s'
    | AssertionFailed => AssertionFailed
    end.

Notation "x <- m ;; k" := (bind m (fun x => k))
  (at level 61, m at next level, right associativity).

Definition lift {A} (o : outcome A) : M A :=
  fun s => match o with
           | Returned a => Returned (a, s)
           | AssertionFailed => AssertionFailed
           end.

(** empty() of a vector. *)
Definition empty {A} (l : list A) : bool :=
  match l with [] => true | _ :: _ => false end.

Definition get_processed : M IdSet := fun s => Returned (processed s, s).

Definition insert_processed (ids : OsmIds) : M unit :=
  fun s => Returned (tt, mkSession (set_insert_range ids (processed s)) (calls s)).

Definition record_call (c : Call) : M unit :=
  fun s => Returned (tt, mkSession (processed s) (calls s ++ [c])%list).

Section WithExternals.

Variable X : Externals.

(** *** formatRegionsRequest *)

(** std::format("{}, {}, {}, {}", boundingBox[0], boundingBox[2],
    boundingBox[1], boundingBox[3]). *)
Definition boundingBoxStr (boundingBox : BoundingBox) : string :=
  format_double X (at0 boundingBox) ++ ", " ++ format_double X (at2 boundingBox) ++ ", "
  ++ format_double X (at1 boundingBox) ++ ", " ++ format_double X (at3 boundingBox).

Definition formatRegionsRequest (prefs : RegionPreferences) (boundingBox : BoundingBox)
  : string :=
  let boundingBoxStr := boundingBoxStr boundingBox in
  let request := sz_requestHeader in
  let request :=
    if has (objects prefs) (GEOGRAPHICAL_FEATURE_INTERNATIONAL_AIRPORTS X)
    then request ++ requestRelationsByNodes (nodeAirportsDef boundingBoxStr)
                      ".nodesA" ".areasA" sz_regionsTags sz_relAirports
    else request in
  let request :=
    if has (objects prefs) (GEOGRAPHICAL_FEATURE_PEAKS X)
    then match find (properties prefs) "minPeakHeight" with
         | Some itLength =>
             let heightMeters := atoi itLength in
             request ++ requestRelationsByNodes (nodePeaksDef boundingBoxStr heightMeters)
                          ".nodesP" ".areasP" sz_regionsTags sz_relPeaks
         | None => request
         end
    else request in
  let request :=
    if has (objects prefs) (GEOGRAPHICAL_FEATURE_SEA_BEACHES X)
    then request ++ requestRelationsByNodes (nodeSeaBeachesDef boundingBoxStr)
                      ".nodesS" ".areasS" sz_regionsTags sz_relSeaBeaches
    else request in
  let request :=
    if has (objects prefs) (GEOGRAPHICAL_FEATURE_SALT_LAKES X)
    then (* the source passes sz_relSeaBeaches here *)
         request ++ requestRelationsByNodes (nodeSaltLakesDef boundingBoxStr)
                      ".nodesL" ".areasL" sz_regionsTags sz_relSeaBeaches
    else request in
  (* if (request == sz_requestHeader) return {}; *)
  if String.eqb request sz_requestHeader then EmptyString
  else
    (* "The result set is an intersection of multiple named sets." *)
    let request := request ++ "rel" in
    let request :=
      if has (objects prefs) (GEOGRAPHICAL_FEATURE_INTERNATIONAL_AIRPORTS X)
      then request ++ sz_relAirports else request in
    let request :=
      if has (objects prefs) (GEOGRAPHICAL_FEATURE_PEAKS X)
      then request ++ sz_relPeaks else request in
    let request :=
      if has (objects prefs) (GEOGRAPHICAL_FEATURE_SEA_BEACHES X)
      then request ++ sz_relSeaBeaches else request in
    let request :=
      if has (objects prefs) (GEOGRAPHICAL_FEATURE_SALT_LAKES X)
      then request ++ sz_relSaltLakes else request in
    request ++ sz_requestFooter.

(** *** isValidBoundingBox *)

Definition sc_maxDimensionKm : Z := 1000.

Definition Qltb (a b : Q) : bool := (Qnum a * QDen b <? Qnum b * QDen a)%Z.

Definition isValidBoundingBox (bbox : BoundingBox) : bool :=
  let '(widthKm, heightKm) := GetBoundingBoxDimensionsKm X bbox in
  Qltb widthKm (inject_Z (sc_maxDimensionKm * 2 + 1))
  && Qltb heightKm (inject_Z (sc_maxDimensionKm * 2 + 1)).

(** *** findRegions *)

Section WithCollaborators.

Variable W : Collaborators.

Definition post (request : string) : M string :=
  _ <- record_call (PostCall request) ;; ret (Post W request).

Definition lookup (ids : OsmIds) : M RelationInfos :=
  _ <- record_call (LookupCall ids) ;; ret (LookupRelationInformation W ids).

(** The last part of findRegions: "Use Nominatim API to load some detailed
    information for all the found relation entities", then the update of
    [processed]. *)
Definition lookupAndRecord (relationIdsToProcess : OsmIds) : M RelationInfos :=
  infos <- lookup relationIdsToProcess ;;
  (* if (infos.empty()) { LOG(ERROR) ...; return {}; } *)
  if empty infos then ret []
  else
    (* processed.insert(relationIdsToProcess.begin(), relationIdsToProcess.end()); *)
    _ <- insert_processed relationIdsToProcess ;;
    ret infos.

Definition findRegions (bbox : BoundingBox) (prefs : RegionPreferences) : M RelationInfos :=
  (* if (!isValidBoundingBox(bbox)) return {}; *)
  if negb (isValidBoundingBox bbox) then ret []
  else
    let request := formatRegionsRequest prefs bbox in
    (* if (request.empty()) return {}; *)
    if is_empty request then ret []
    else
      response <- post request ;;
      relationIds <- lift (ExtractRelationIds (Parse X) response) ;;
      (* if (relationIds.size()) return {}; *)
      if negb (Nat.eqb (List.length relationIds) 0) then ret []
      else
        seen <- get_processed ;;
        let relationIdsToProcess := set_difference (sort relationIds) seen in
        (* if (!relationIdsToProcess.empty()) return {}; *)
        if negb (empty relationIdsToProcess) then ret []
        else lookupAndRecord relationIdsToProcess.

(** The handler StartFindRegions returns: one step of the session. *)
Definition IncrementalSearchHandler (bbox : BoundingBox) (prefs : RegionPreferences)
  : M GeoProtoPlaces :=
  iterationResult <- findRegions bbox prefs ;;
  ret (map toGeoProtoPlace iterationResult).

End WithCollaborators.

(** A sequence of steps of one session; each step comes with the
    collaborators as they answer at that time. *)
Definition Step : Type := (Collaborators * BoundingBox * RegionPreferences)%type.

Fixpoint run (steps : list Step) : M (list GeoProtoPlaces) :=
  match steps with
  | [] => ret []
  | (W, bbox, prefs) :: rest =>
      out <- IncrementalSearchHandler W bbox prefs ;;
      outs <- run rest ;;
      ret (out :: outs)
  end.

End WithExternals.

(** StartFindRegions: the session starts with an empty [processed]. *)
Definition StartFindRegions : Session := mkSession [] [].


(** The set difference of step 4 of the specification: the extracted ids
    that are not in the processed set. *)
Definition unseen (relationIds : OsmIds) (s : IdSet) : OsmIds :=
  set_difference (sort relationIds) s.

(** *** Feature categories, in the words of the specification *)

Inductive Category : Type := Airports | Peaks | SeaBeaches | SaltLakes.

Definition flag_of (X : Externals) (c : Category) : Z :=
  match c with
  | Airports => GEOGRAPHICAL_FEATURE_INTERNATIONAL_AIRPORTS X
  | Peaks => GEOGRAPHICAL_FEATURE_PEAKS X
  | SeaBeaches => GEOGRAPHICAL_FEATURE_SEA_BEACHES X
  | SaltLakes => GEOGRAPHICAL_FEATURE_SALT_LAKES X
  end.

Definition enabled (X : Externals) (prefs : RegionPreferences) (c : Category) : bool :=
  has (objects prefs) (flag_of X c).

(** The property a category needs before its sub-query is written: only
    the peaks branch looks one up. *)
Definition required_property (c : Category) : option string :=
  match c with
  | Peaks => Some "minPeakHeight"
  | _ => None
  end.

(** An enabled category lacks a required parameter. *)
Definition lacks_parameter (prefs : RegionPreferences) (c : Category) : bool :=
  match required_property c with
  | Some key => match find (properties prefs) key with None => true | Some _ => false end
  | None => false
  end.

(** [needle] occurs in [text]. *)
Fixpoint contains (needle text : string) : bool :=
  prefix needle text
  || match text with
     | EmptyString => false
     | String _ rest => contains needle rest
     end.

End SearchEngine.

(** ** Worked scenarios: concrete externals and collaborators *)

Module Scenario.
Import Json Overpass SearchEngine.

Open Scope string_scope.

Fixpoint fraction_digits (fuel : nat) (r den : Z) : string :=
  match fuel with
  | O => EmptyString
  | S f =>
      if (r =? 0)%Z then EmptyString
      else format_int (10 * r / den) ++ fraction_digits f ((10 * r) mod den) den
  end.

(** A formatter that writes a double with a short decimal expansion the way
    std::format does: 10 as "10", 10.5 as "10.5". *)
Definition format_fixed (q : Q) : string :=
  let n := Qnum q in
  let d := Zpos (Qden q) in
  let a := Z.abs n in
  (if (n <? 0)%Z then "-" else EmptyString)
  ++ format_int (a / d)
  ++ (if (a mod d =? 0)%Z then EmptyString else "." ++ fraction_digits 17 (a mod d) d).

(** Externals with the category bits 1, 2, 4, 8, for a box of the given
    dimensions in km and a response that parses to [document]. *)
Definition externals (dims : Q * Q) (document : Value) : Externals :=
  mkExternals 1 2 4 8 format_fixed (fun _ => dims) (fun _ => document).

Definition relation_element (id : Z) : Value :=
  kObject [("type", kString "relation"); ("id", kInt id)].

Definition node_element (id : Z) : Value :=
  kObject [("type", kString "node"); ("id", kInt id)].

Definition document_of (elements : list Value) : Value :=
  kObject [("elements", kArray elements)].

Definition info_of (id : OsmId) : RelationInfo :=
  mkRelationInfo id ("region " ++ format_int id) "country" 0 0.

(** A geocoding collaborator that resolves every id. *)
Definition resolve_all (ids : OsmIds) : RelationInfos := map info_of ids.

(** A geocoding collaborator that resolves the ids satisfying [known]. *)
Definition resolve_some (known : OsmId -> bool) (ids : OsmIds) : RelationInfos :=
  map info_of (filter known ids).

(** A geocoding collaborator that resolves nothing. *)
Definition resolve_none (ids : OsmIds) : RelationInfos := [].

Definition collaborators (response : string) (resolve : OsmIds -> RelationInfos)
  : Collaborators :=
  mkCollaborators (fun _ => response) resolve.

(** The box of the composer scenario, south=10, west=10, north=10.5,
    east=10.5, in the two slot orders a four-double box can have them:
    south, north, west, east and south, west, north, east. *)
Definition box_snwe : BoundingBox := mkBoundingBox 10 10.5 10 10.5.
Definition box_swne : BoundingBox := mkBoundingBox 10 10 10.5 10.5.

Definition only (flag : Z) (props : list (string * string)) : RegionPreferences :=
  mkRegionPreferences flag props.

End Scenario.


(** ** The parts of a regions request *)

Module RequestParts.
Import Overpass SearchEngine.

Open Scope string_scope.

Section WithExternals.

Variable X : Externals.

(** The sub-query each category adds to the request, empty when the
    category adds none. *)
Definition airportsPart (prefs : RegionPreferences) (bbox : string) : string :=
  if has (objects prefs) (GEOGRAPHICAL_FEATURE_INTERNATIONAL_AIRPORTS X)
  then requestRelationsByNodes (nodeAirportsDef bbox)
         ".nodesA" ".areasA" sz_regionsTags sz_relAirports
  else EmptyString.

Definition peaksPart (prefs : RegionPreferences) (bbox : string) : string :=
  if has (objects prefs) (GEOGRAPHICAL_FEATURE_PEAKS X)
  then match find (properties prefs) "minPeakHeight" with
       | Some itLength =>
           requestRelationsByNodes (nodePeaksDef bbox (atoi itLength))
             ".nodesP" ".areasP" sz_regionsTags sz_relPeaks
       | None => EmptyString
       end
  else EmptyString.

Definition seaBeachesPart (prefs : RegionPreferences) (bbox : string) : string :=
  if has (objects prefs) (GEOGRAPHICAL_FEATURE_SEA_BEACHES X)
  then requestRelationsByNodes (nodeSeaBeachesDef bbox)
         ".nodesS" ".areasS" sz_regionsTags sz_relSeaBeaches
  else EmptyString.

Definition saltLakesPart (prefs : RegionPreferences) (bbox : string) : string :=
  if has (objects prefs) (GEOGRAPHICAL_FEATURE_SALT_LAKES X)
  then requestRelationsByNodes (nodeSaltLakesDef bbox)
         ".nodesL" ".areasL" sz_regionsTags sz_relSeaBeaches
  else EmptyString.

Definition subqueries (prefs : RegionPreferences) (boundingBox : BoundingBox) : string :=
  let bbox := boundingBoxStr X boundingBox in
  airportsPart prefs bbox ++ peaksPart prefs bbox
  ++ seaBeachesPart prefs bbox ++ saltLakesPart prefs bbox.

(** The labels the final segment lists: one for each bit set in the mask. *)
Definition labels (prefs : RegionPreferences) : string :=
  (if has (objects prefs) (GEOGRAPHICAL_FEATURE_INTERNATIONAL_AIRPORTS X)
   then sz_relAirports else EmptyString)
  ++ (if has (objects prefs) (GEOGRAPHICAL_FEATURE_PEAKS X)
      then sz_relPeaks else EmptyString)
  ++ (if has (objects prefs) (GEOGRAPHICAL_FEATURE_SEA_BEACHES X)
      then sz_relSeaBeaches else EmptyString)
  ++ (if has (objects prefs) (GEOGRAPHICAL_FEATURE_SALT_LAKES X)
      then sz_relSaltLakes else EmptyString).

(** A category whose sub-query is written: enabled, and with the property
    it needs. *)
Definition usable (prefs : RegionPreferences) (c : Category) : bool :=
  enabled X prefs c && negb (lacks_parameter prefs c).

End WithExternals.

(** A text at which std::atoi stops reading digits: the empty text, or a
    text whose first character is not a digit. *)
Definition no_digit_head (t : string) : bool :=
  match t with
  | EmptyString => true
  | String c _ => match digit_of c with Some _ => false | None => true end
  end.

(** A text in which std::atoi finds no number: after the white space and
    an optional sign there is no digit. *)
Definition no_number (s : string) : bool :=
  match skip_spaces s with
  | String "-" rest => no_digit_head rest
  | String "+" rest => no_digit_head rest
  | t => no_digit_head t
  end.

End RequestParts.

(** ** OverpassApiUtils.cc: the request texts, and the vocabulary of
       ExtractNodes *)

Module OverpassLoaders.
Import Json Overpass SearchEngine.

Open Scope string_scope.

(** std::format(sz_requestByNameFormat, name). *)
Definition requestByName (name : string) : string :=
  "[out:json];"
  ++ "rel[" ++ quoted "name" ++ "=" ++ dq ++ name ++ dq ++ "]["
     ++ quoted "boundary" ++ "=" ++ quoted "administrative" ++ "];"
  ++ "out ids;".

(** std::format(sz_requestByCoordinatesFormat, latitude, longitude). *)
Definition requestByCoordinates (fmt : Q -> string) (latitude longitude : Q) : string :=
  "[out:json];"
  ++ "is_in(" ++ fmt latitude ++ "," ++ fmt longitude ++ ") -> .areas;"
  ++ "("
  ++ "rel(pivot.areas)[" ++ quoted "boundary" ++ "=" ++ quoted "administrative" ++ "];"
  ++ "rel(pivot.areas)[" ++ quoted "place" ++ "~" ++ quoted "^(city|town|state)$" ++ "];"
  ++ ");"
  ++ "out ids;".

(** std::format(sz_requestTourismNodesFormat, relationId). *)
Definition requestTourismNodes (relationId : OsmId) : string :=
  "[out:json];"
  ++ "rel(" ++ format_int relationId ++ ");"
  ++ "node(r)[" ++ quoted "tourism" ++ "];"
  ++ "out body;".

(** An element typed "node". *)
Definition is_node (e : Value) : bool :=
  String.eqb (GetString (Get e "type")) "node".

(** The members of the "tags" object of an element; none when "tags" is
    not an object. *)
Definition tag_members (e : Value) : list (string * Value) :=
  match Get e "tags" with
  | kObject members => members
  | _ => []
  end.

Definition is_string (v : Value) : bool :=
  match v with kString _ => true | _ => false end.

(** Every tag value of the element is a string. *)
Definition string_tags (e : Value) : bool :=
  forallb (fun kv => is_string (snd kv)) (tag_members e).

(** The last value a name has among the members. *)
Definition last_value (members : list (string * Value)) (name : string) : option Value :=
  FindMember (rev members) name.

End OverpassLoaders.

(** ** SearchEngine.cc: the city search *)

Module Cities.
Import Json Overpass SearchEngine OverpassLoaders.

Open Scope string_scope.

(** nominatim::Match. *)
Inductive Match : Type := Any | Best.

(** What overpass::LoadCityDetails returns for a city, with the fields
    findCities reads. *)
Record CityDetail : Type := mkCityDetail {
  detail_latitude : Q;
  detail_longitude : Q;
  tourism_type : string;
  detail_name : string;
  name_en : string
}.

(** A feature of a place: a position and the map of its tags. *)
Record Feature : Type := mkFeature {
  position_latitude : Q;
  position_longitude : Q;
  feature_tags : TagMap
}.

(** A GeoProtoPlace together with its repeated field [features]. *)
Definition City : Type := (GeoProtoPlace * list Feature)%type.

Inductive CityCall : Type :=
| OverpassPost (request : string)
| LookupForCities (ids : OsmIds) (match_ : Match)
| CityDetails (id : OsmId).

(** The collaborators of the city search: the Overpass client,
    nominatim::LookupRelationInformationForCities and
    overpass::LoadCityDetails (neither is under src/). *)
Record CityServices : Type := mkCityServices {
  OverpassResponse : string -> string;
  LookupRelationInformationForCities : OsmIds -> Match -> RelationInfos;
  LoadCityDetails : OsmId -> list CityDetail
}.

(** A computation records its calls, oldest first, and returns unless an
    assertion fails. *)
Definition C (A : Type) : Type := list CityCall -> outcome (A * list CityCall).

Definition cret {A} (a : A) : C A := fun t => Returned (a, t).

Definition cbind {A B} (m : C A) (k : A -> C B) : C B :=
  fun t =>
    match m t with
    | Returned (a, t') => k a t'
    | AssertionFailed => AssertionFailed
    end.

Notation "x <~ m ;; k" := (cbind m (fun x => k))
  (at level 61, m at next level, right associativity).

Definition call (c : CityCall) : C unit := fun t => Returned (tt, (t ++ [c])%list).

Definition clift {A} (o : outcome A) : C A :=
  fun t => match o with
           | Returned a => Returned (a, t)
           | AssertionFailed => AssertionFailed
           end.

(** The body of the loop over [details]: the feature one detail adds. *)
Definition feature_of (detail : CityDetail) : Feature :=
  let tags := map_assign [] "tourism" (tourism_type detail) in
  let tags :=
    if negb (is_empty (detail_name detail))
    then map_assign tags "name" (detail_name detail) else tags in
  let tags :=
    if negb (is_empty (name_en detail))
    then map_assign tags "name:en" (name_en detail) else tags in
  mkFeature (detail_latitude detail) (detail_longitude detail) tags.

Section WithServices.

Variable X : Externals.
Variable S : CityServices.

Definition city_of (includeDetails : bool) (i : RelationInfo) : C City :=
  let city := toGeoProtoPlace i in
  if includeDetails
  then
    _ <~ call (CityDetails (osm_id i)) ;;
    let details := LoadCityDetails S (osm_id i) in
    cret (city, map feature_of details)
  else cret (city, []).

(** The loop of findCities over [infos]. *)
Fixpoint cities_of (includeDetails : bool) (infos : RelationInfos) : C (list City) :=
  match infos with
  | [] => cret []
  | i :: rest =>
      city <~ city_of includeDetails i ;;
      result <~ cities_of includeDetails rest ;;
      cret (city :: result)
  end.

Definition findCities (relationIds : OsmIds) (match_ : Match) (includeDetails : bool)
  : C (list City) :=
  (* if (relationIds.empty()) return {}; *)
  if empty relationIds then cret []
  else
    _ <~ call (LookupForCities relationIds match_) ;;
    let infos := LookupRelationInformationForCities S relationIds match_ in
    cities_of includeDetails infos.

(** client.Post(request) on the Overpass client. *)
Definition Post (request : string) : C string :=
  _ <~ call (OverpassPost request) ;; cret (OverpassResponse S request).

(** The loaders of OverpassApiUtils.cc. *)
Definition LoadRelationIdsByName (name : string) : C OsmIds :=
  let request := requestByName name in
  response <~ Post request ;;
  clift (ExtractRelationIds (Parse X) response).

Definition LoadRelationIdsByLocation (latitude longitude : Q) : C OsmIds :=
  let request := requestByCoordinates (format_double X) latitude longitude in
  response <~ Post request ;;
  clift (ExtractRelationIds (Parse X) response).

Definition LoadTourismNodesForRelation (relationId : OsmId) : C OsmNodes :=
  let request := requestTourismNodes relationId in
  response <~ Post request ;;
  clift (ExtractNodes (Parse X) response).

Definition FindCitiesByName (name : string) (includeDetails : bool) : C (list City) :=
  relationIds <~ LoadRelationIdsByName name ;;
  findCities relationIds Any includeDetails.

Definition FindCitiesByPosition (latitude longitude : Q) (includeDetails : bool)
  : C (list City) :=
  relationIds <~ LoadRelationIdsByLocation latitude longitude ;;
  findCities relationIds Best includeDetails.

(** The city findCities makes of one relation, and the detail calls it
    makes for a list of relations. *)
Definition city_with (includeDetails : bool) (i : RelationInfo) : City :=
  (toGeoProtoPlace i,
   if includeDetails then map feature_of (LoadCityDetails S (osm_id i)) else []).

Definition detail_calls (includeDetails : bool) (infos : RelationInfos) : list CityCall :=
  if includeDetails then map (fun i => CityDetails (osm_id i)) infos else [].

End WithServices.

Definition is_details (c : CityCall) : bool :=
  match c with CityDetails _ => true | _ => false end.

Definition is_lookup (c : CityCall) : bool :=
  match c with LookupForCities _ _ => true | _ => false end.

End Cities.

(** ** OpenMeteoApiUtils.cc: the weather request and its response *)

Module Weather.
Import Chrono OpenMeteo Json Overpass.

Open Scope string_scope.

(** WeatherInfo, with the fields parseWeatherResponse writes; its
    declaration is not under src/, and the temperatures are taken to be
    doubles, as json::GetDouble gives them. *)
Record WeatherInfo : Type := mkWeatherInfo {
  time : Date;
  temperatureMax : Q;
  temperatureMin : Q;
  temperatureAverage : Q
}.

Definition WeatherInfoVector : Type := list WeatherInfo.

(** What the translation unit takes from outside: std::format for a
    double and for a date with the %F format, StringToDate, the JSON
    parser and the answers of WebClient::Get. *)
Record MeteoExternals : Type := mkMeteoExternals {
  meteo_format_double : Q -> string;
  format_F : Date -> string;
  StringToDate : string -> Date;
  meteo_Parse : string -> Value;
  WebClient_Get : string -> string
}.

Section WithExternals.

Variable X : MeteoExternals.


(** The entry of index [i] the loop of parseWeatherResponse writes.  The
    average is (temperatureMax + temperatureMin) / 2.0f, computed in the
    rationals the doubles denote. *)
Definition info_at (timeValues maxValues minValues : list Value) (i : nat) : WeatherInfo :=
  let t := StringToDate X (GetString (nth i timeValues kNull)) in
  let tmax := GetDouble (nth i maxValues kNull) in
  let tmin := GetDouble (nth i minValues kNull) in
  mkWeatherInfo t tmax tmin ((tmax + tmin) / 2)%Q.

Definition parseWeatherResponse (response : string) : outcome WeatherInfoVector :=
  let document := meteo_Parse X response in
  obind (GetArray (Get (Get document "daily") "time")) (fun timeValues =>
  obind (GetArray (Get (Get document "daily") "temperature_2m_max")) (fun temperatureMaxValues =>
  obind (GetArray (Get (Get document "daily") "temperature_2m_min")) (fun temperatureMinValues =>
  let numValues := List.length timeValues in
  if negb (Nat.eqb (List.length temperatureMaxValues) numValues)
     || negb (Nat.eqb (List.length temperatureMinValues) numValues)
  then Returned []
  else Returned (map (info_at timeValues temperatureMaxValues temperatureMinValues)
                   (seq 0 numValues))))).


End WithExternals.

(** json::Get(document, "daily", name). *)
Definition daily (document : Value) (name : string) : Value :=
  Get (Get document "daily") name.

(** The three arrays of a weather document. *)
Definition weather_document (timeValues maxValues minValues : list Value) : Value :=
  kObject [("daily", kObject [("time", kArray timeValues);
                              ("temperature_2m_max", kArray maxValues);
                              ("temperature_2m_min", kArray minValues)])].

End Weather.

(** ** Worked scenarios for the city search and the weather response *)

Module MoreScenarios.
Import Chrono OpenMeteo Json Overpass SearchEngine Cities Weather Scenario.

Open Scope string_scope.

(** City services that answer every request with "response", resolve
    every id for [Any] and the first id for [Best], and know one museum
    and one unnamed hotel in every city. *)
Definition city_services : CityServices :=
  mkCityServices
    (fun _ => "response")
    (fun ids m => map info_of (match m with Any => ids | Best => firstn 1 ids end))
    (fun _ => [mkCityDetail 1 2 "museum" "Louvre" "The Louvre";
               mkCityDetail 3 4 "hotel" EmptyString EmptyString]).

(** Weather externals for a response that parses to [document]. *)
Definition meteo_externals (document : Value) (response : string) : MeteoExternals :=
  mkMeteoExternals format_fixed (fun _ => "date") (fun _ => ymd 2024 1 1)
    (fun _ => document) (fun _ => response).

End MoreScenarios.

(* ================================================================== *)
(** * Part II: lemmas and theorems *)
(* ================================================================== *)

(** ** The calendar *)

Module ChronoFacts.
Import Chrono.

(** *** Years in a short *)

Lemma to_short_id y : in_short y -> to_short y = y.
Proof. unfold in_short, to_short. intros H. Z.div_mod_to_equations. lia. Qed.

Lemma to_short_range y : in_short (to_short y).
Proof. unfold in_short, to_short. Z.div_mod_to_equations. lia. Qed.

Lemma to_short_minus a b : to_short (to_short a - b) = to_short (a - b).
Proof. unfold to_short. Z.div_mod_to_equations. lia. Qed.

Lemma to_short_period a n : to_short (a - 65536 * n) = to_short a.
Proof. unfold to_short. Z.div_mod_to_equations. lia. Qed.

Lemma year_ok_iff y : year_ok y = true <-> -32767 <= y <= 32767.
Proof. unfold year_ok. rewrite andb_true_iff, !Z.leb_le. reflexivity. Qed.

Lemma month_ok_iff m : month_ok m = true <-> 1 <= m <= 12.
Proof. unfold month_ok. rewrite andb_true_iff, !Z.leb_le. reflexivity. Qed.

(** *** Days and dates *)

Lemma era_split z : 0 <= z - z / 146097 * 146097 <= 146096.
Proof. Z.div_mod_to_equations. lia. Qed.

Lemma year_of_era_bounds doe :
  0 <= doe <= 146096 ->
  let yoe := (doe - doe / 1460 + doe / 36524 - doe / 146096) / 365 in
  0 <= yoe <= 399 /\ 0 <= doe - (365 * yoe + yoe / 4 - yoe / 100) <= 365.
Proof. intros H yoe. subst yoe. Z.div_mod_to_equations. lia. Qed.

Lemma month_index_bounds doy :
  0 <= doy <= 365 ->
  let mp := (5 * doy + 2) / 153 in
  0 <= mp <= 11 /\ 1 <= doy - (153 * mp + 2) / 5 + 1 <= 31.
Proof. intros H mp. subst mp. Z.div_mod_to_equations. lia. Qed.

(** The date a day count names converts back to the day count. *)
Lemma to_civil_from_days z : to_sys_days (civil_from_days z) = z.
Proof.
  unfold civil_from_days.
  pose proof (era_split (z + 719468)) as He.
  set (era := (z + 719468) / 146097) in *.
  set (doe := z + 719468 - era * 146097) in *.
  pose proof (year_of_era_bounds doe He) as Hy. cbv zeta in Hy.
  set (yoe := (doe - doe / 1460 + doe / 36524 - doe / 146096) / 365) in *.
  set (doy := doe - (365 * yoe + yoe / 4 - yoe / 100)) in *.
  destruct Hy as [Hy Hdoy].
  pose proof (month_index_bounds doy Hdoy) as Hm. cbv zeta in Hm.
  set (mp := (5 * doy + 2) / 153) in *.
  destruct Hm as [Hm Hd].
  unfold to_sys_days; cbn [year month day].
  set (m := if mp <? 10 then mp + 3 else mp - 9).
  assert (Hy' : (if m <=? 2
                 then (if m <=? 2 then yoe + era * 400 + 1 else yoe + era * 400) - 1
                 else (if m <=? 2 then yoe + era * 400 + 1 else yoe + era * 400))
                = yoe + era * 400)
    by (destruct (m <=? 2); lia).
  rewrite Hy'.
  assert (Hmp : (if 2 <? m then m - 3 else m + 9) = mp)
    by (subst m; destruct (Z.ltb_spec mp 10);
        [destruct (Z.ltb_spec 2 (mp + 3)) | destruct (Z.ltb_spec 2 (mp - 9))]; lia).
  rewrite Hmp.
  rewrite Z.div_add by lia.
  rewrite (Z.div_small yoe 400) by lia.
  replace (yoe + era * 400 - (0 + era) * 400) with yoe by lia.
  subst doy doe. lia.
Qed.

(** A day count names a month in 1..12 and a day in 1..31. *)
Lemma civil_from_days_fields z :
  1 <= month (civil_from_days z) <= 12 /\ 1 <= day (civil_from_days z) <= 31.
Proof.
  unfold civil_from_days; cbn [month day].
  pose proof (era_split (z + 719468)) as He.
  set (era := (z + 719468) / 146097) in *.
  set (doe := z + 719468 - era * 146097) in *.
  pose proof (year_of_era_bounds doe He) as Hy. cbv zeta in Hy.
  set (yoe := (doe - doe / 1460 + doe / 36524 - doe / 146096) / 365) in *.
  set (doy := doe - (365 * yoe + yoe / 4 - yoe / 100)) in *.
  destruct Hy as [Hy Hdoy].
  pose proof (month_index_bounds doy Hdoy) as Hm. cbv zeta in Hm.
  set (mp := (5 * doy + 2) / 153) in *.
  destruct Hm as [Hm Hd].
  split; [|exact Hd].
  destruct (Z.ltb_spec mp 10); lia.
Qed.

(** A date of the year [y0] or of a later year is not before 1 January of
    [y0]; a date of [y0] or of an earlier year is not after 31 December
    of [y0]. *)
Lemma to_sys_days_from_year y m d y0 :
  1 <= m <= 12 -> 1 <= d -> y0 <= y ->
  to_sys_days (ymd y0 1 1) <= to_sys_days (ymd y m d).
Proof.
  intros Hm Hd Hy. unfold to_sys_days; cbn [year month day].
  change (1 <=? 2) with true. change (2 <? 1) with false. cbv iota.
  destruct (Z.leb_spec m 2); destruct (Z.ltb_spec 2 m); try lia;
    Z.div_mod_to_equations; lia.
Qed.

Lemma to_sys_days_upto_year y m d y0 :
  1 <= m <= 12 -> d <= 31 -> y <= y0 ->
  to_sys_days (ymd y m d) <= to_sys_days (ymd y0 12 31).
Proof.
  intros Hm Hd Hy. unfold to_sys_days; cbn [year month day].
  change (12 <=? 2) with false. change (2 <? 12) with true. cbv iota.
  destruct (Z.leb_spec m 2); destruct (Z.ltb_spec 2 m); try lia;
    Z.div_mod_to_equations; lia.
Qed.

(** From 1 January -32767 to 31 December 32767 the year a day count names
    is a year of std::chrono. *)
Lemma civil_year_ok z :
  to_sys_days (ymd (-32767) 1 1) <= z <= to_sys_days (ymd 32767 12 31) ->
  -32767 <= year (civil_from_days z) <= 32767.
Proof.
  intros [Hlo Hhi].
  pose proof (to_civil_from_days z) as Hz.
  destruct (civil_from_days_fields z) as [Hm Hd].
  destruct (civil_from_days z) as [y m d]; cbn [year month day] in *.
  split.
  - destruct (Z.le_gt_cases (-32767) y) as [H|H]; [exact H|exfalso].
    pose proof (to_sys_days_upto_year y m d (-32768) Hm ltac:(lia) ltac:(lia)) as Hb.
    change (to_sys_days (ymd (-32768) 12 31)) with (to_sys_days (ymd (-32767) 1 1) - 1) in Hb.
    lia.
  - destruct (Z.le_gt_cases y 32767) as [H|H]; [exact H|exfalso].
    pose proof (to_sys_days_from_year y m d 32768 Hm ltac:(lia) ltac:(lia)) as Hb.
    change (to_sys_days (ymd 32768 1 1)) with (to_sys_days (ymd 32767 12 31) + 1) in Hb.
    lia.
Qed.

(** On these days the conversion does not wrap the year, and converting a
    day count to a date and back gives the day count. *)
Lemma from_sys_days_fits z :
  to_sys_days (ymd (-32767) 1 1) <= z <= to_sys_days (ymd 32767 12 31) ->
  from_sys_days z = civil_from_days z.
Proof.
  intro H. unfold from_sys_days. cbv zeta.
  rewrite to_short_id by (pose proof (civil_year_ok z H); unfold in_short; lia).
  destruct (civil_from_days z); reflexivity.
Qed.

Lemma to_from_sys_days z :
  to_sys_days (ymd (-32767) 1 1) <= z <= to_sys_days (ymd 32767 12 31) ->
  to_sys_days (from_sys_days z) = z.
Proof. intro H. rewrite (from_sys_days_fits z H). apply to_civil_from_days. Qed.

Lemma from_sys_days_year_range z : in_short (year (from_sys_days z)).
Proof. unfold from_sys_days. cbv zeta. cbn [year]. apply to_short_range. Qed.

(** *** The order of dates *)

Ltac order_cases :=
  repeat match goal with
         | H : context [?a <? ?b] |- _ => destruct (Z.ltb_spec a b)
         | H : context [?a <=? ?b] |- _ => destruct (Z.leb_spec a b)
         | H : context [?a =? ?b] |- _ => destruct (Z.eqb_spec a b)
         | |- context [?a <? ?b] => destruct (Z.ltb_spec a b)
         | |- context [?a <=? ?b] => destruct (Z.leb_spec a b)
         | |- context [?a =? ?b] => destruct (Z.eqb_spec a b)
         end;
  cbn [orb andb] in *; try reflexivity; try discriminate; try lia.

(** The order of dates is total: when [a <= b] fails, [b < a]. *)
Lemma ymd_leb_false a b : ymd_leb a b = false -> ymd_ltb b a = true.
Proof. unfold ymd_leb, ymd_ltb. intros H. order_cases. Qed.

Lemma ymd_ltb_leb a b : ymd_ltb a b = true -> ymd_leb b a = false.
Proof. unfold ymd_leb, ymd_ltb. intros H. order_cases. Qed.

Lemma ymd_leb_year a b : ymd_leb a b = true -> year a <= year b.
Proof. unfold ymd_leb. intros H. order_cases. Qed.


End ChronoFacts.

(** ** CollectHistoricalRanges *)

Module OpenMeteoFacts.
Import Chrono OpenMeteo ChronoFacts.


Lemma years_back_add k : forall i w,
  years_back i (years_back k w) = years_back (k + i) w.
Proof.
  induction k as [|k IH]; intros i w; [reflexivity|].
  cbn [years_back Nat.add]. apply IH.
Qed.

(** A range moved back [k] times: the years are lowered by [k] and wrap
    around as a short does; months and days stay. *)
Lemma years_back_fields k : forall w,
  in_short (year (fst w)) -> in_short (year (snd w)) ->
  years_back k w
  = (ymd (to_short (year (fst w) - Z.of_nat k)) (month (fst w)) (day (fst w)),
     ymd (to_short (year (snd w) - Z.of_nat k)) (month (snd w)) (day (snd w))).
Proof.
  induction k as [|k IH]; intros w Hs He.
  - cbn [years_back Z.of_nat]. rewrite !Z.sub_0_r, !to_short_id by assumption.
    destruct w as [[] []]; reflexivity.
  - cbn [years_back]. rewrite IH;
      unfold year_back, oneYear, minus_years; cbn [fst snd year month day];
      try apply to_short_range.
    rewrite !to_short_minus.
    replace (year (fst w) - 1 - Z.of_nat k) with (year (fst w) - Z.of_nat (S k)) by lia.
    replace (year (snd w) - 1 - Z.of_nat k) with (year (snd w) - Z.of_nat (S k)) by lia.
    reflexivity.
Qed.


(** The loop stops within the turns it is given when they outnumber the
    years from the latest date to the end of the range.  It stops at the
    first range whose end is before the latest date, and up to there the
    year of the end has not wrapped around. *)
Lemma go_back_stops latestDate : forall turns w,
  -32768 < year latestDate ->
  in_short (year (snd w)) ->
  Z.max 0 (year (snd w) - year latestDate + 1) < Z.of_nat turns ->
  exists k,
    go_back turns latestDate w = Some (years_back k w)
    /\ ymd_leb latestDate (snd (years_back k w)) = false
    /\ (forall j, (j < k)%nat -> ymd_leb latestDate (snd (years_back j w)) = true)
    /\ (forall j, (j <= k)%nat ->
          year (snd (years_back j w)) = year (snd w) - Z.of_nat j).
Proof.
  unfold in_short.
  induction turns as [|t IH]; intros w Hl He Ht; [lia|].
  cbn [go_back]. destruct (ymd_leb latestDate (snd w)) eqn:Hcond.
  - pose proof (ymd_leb_year _ _ Hcond) as Hy.
    assert (Hback : year (snd (year_back w)) = year (snd w) - 1).
    { unfold year_back, oneYear, minus_years; cbn [snd year].
      apply to_short_id. unfold in_short. lia. }
    destruct (IH (year_back w) Hl) as [k (Hk & Hend & Hmin & Hyears)]; [lia|lia|].
    exists (S k). cbn [years_back]. split; [exact Hk|]. split; [exact Hend|]. split.
    + intros j Hj. destruct j as [|j]; [exact Hcond|]. cbn [years_back]. apply Hmin. lia.
    + intros j Hj. destruct j as [|j]; [cbn [years_back Z.of_nat]; lia|].
      cbn [years_back]. rewrite Hyears by lia. lia.
  - exists O. cbn [years_back]. split; [reflexivity|]. split; [exact Hcond|]. split.
    + intros j Hj. lia.
    + intros j Hj. assert (j = O) by lia. subst j. cbn [years_back Z.of_nat]. lia.
Qed.

(** A loop that has not stopped after 65536 tests does not stop: its
    condition holds however many times the range is moved back. *)
Lemma go_back_never_stops latestDate w :
  in_short (year (fst w)) -> in_short (year (snd w)) ->
  go_back all_years latestDate w = None ->
  forall k, ymd_leb latestDate (snd (years_back k w)) = true.
Proof.
  intros Hs He Hnone.
  assert (Hturns : forall turns w',
             go_back turns latestDate w' = None ->
             forall j, (j < turns)%nat -> ymd_leb latestDate (snd (years_back j w')) = true).
  { induction turns as [|t IH]; intros w' H j Hj; [lia|].
    cbn [go_back] in H. destruct (ymd_leb latestDate (snd w')) eqn:Hcond; [|discriminate].
    destruct j as [|j]; [exact Hcond|]. cbn [years_back]. apply IH; [exact H|lia]. }
  intro k.
  set (j := Z.to_nat (Z.of_nat k mod 65536)).
  assert (Hj : (j < all_years)%nat).
  { unfold j, all_years. apply Z2Nat.inj_lt; Z.div_mod_to_equations; lia. }
  rewrite (years_back_fields k w Hs He). cbn [snd].
  replace (to_short (year (snd w) - Z.of_nat k))
    with (to_short (year (snd w) - Z.of_nat j)).
  - pose proof (Hturns all_years w Hnone j Hj) as H.
    rewrite (years_back_fields j w Hs He) in H. exact H.
  - unfold j. rewrite Z2Nat.id by (Z.div_mod_to_equations; lia).
    rewrite <- (to_short_period (year (snd w) - Z.of_nat k mod 65536) (Z.of_nat k / 65536)).
    f_equal. Z.div_mod_to_equations. lia.
Qed.

Lemma collect_length n w : List.length (collect n w) = n.
Proof. revert w. induction n as [|n IH]; intro w; cbn; [reflexivity|]. now rewrite IH. Qed.

Lemma collect_nth n : forall w i,
  (i < n)%nat -> nth_error (collect n w) i = Some (years_back i w).
Proof.
  induction n as [|n IH]; intros w i Hi; [lia|].
  destruct i as [|i]; cbn; [reflexivity|].
  apply IH. lia.
Qed.

Lemma collect_nth_inv n w i w' :
  nth_error (collect n w) i = Some w' -> (i < n)%nat /\ w' = years_back i w.
Proof.
  intro H.
  assert (Hi : (i < n)%nat).
  { rewrite <- (collect_length n w). apply nth_error_Some. rewrite H. discriminate. }
  split; [exact Hi|]. rewrite (collect_nth n w i Hi) in H. now injection H.
Qed.

Lemma collect_head n w : (0 < n)%nat -> hd_error (collect n w) = Some w.
Proof. destruct n; [lia|reflexivity]. Qed.

Lemma anchor_fields dateRange latestDate :
  anchor dateRange latestDate
  = (ymd (year latestDate) (month (fst dateRange)) (day (fst dateRange)),
     from_sys_days (candidate_end_day dateRange latestDate)).
Proof. destruct dateRange as [s e]. reflexivity. Qed.

(** What the condition on the inputs says. *)
Lemma within_chrono_range_iff dateRange latestDate :
  within_chrono_range dateRange latestDate = true
  <-> ((-32767 <= year (fst dateRange) <= 32767 /\ 1 <= month (fst dateRange) <= 12)
       /\ (-32767 <= year (snd dateRange) <= 32767 /\ 1 <= month (snd dateRange) <= 12))
      /\ -32767 <= year latestDate <= 32767
      /\ first_day <= candidate_end_day dateRange latestDate <= last_day.
Proof.
  unfold within_chrono_range, convertible.
  rewrite !andb_true_iff, !year_ok_iff, !month_ok_iff, !Z.leb_le. tauto.
Qed.

(** The candidate range before the loop has the day count of the input. *)
Lemma anchor_span dateRange latestDate :
  within_chrono_range dateRange latestDate = true ->
  span (anchor dateRange latestDate) = span dateRange.
Proof.
  intro H. apply within_chrono_range_iff in H. destruct H as (_ & _ & Hfit).
  rewrite anchor_fields. unfold span; cbn [fst snd].
  rewrite to_from_sys_days by exact Hfit.
  unfold candidate_end_day. lia.
Qed.

Lemma anchor_in_short dateRange latestDate :
  within_chrono_range dateRange latestDate = true ->
  in_short (year (fst (anchor dateRange latestDate)))
  /\ in_short (year (snd (anchor dateRange latestDate))).
Proof.
  intro H. apply within_chrono_range_iff in H. destruct H as (_ & Hl & _).
  rewrite anchor_fields. cbn [fst snd year].
  split; [unfold in_short; lia|apply from_sys_days_year_range].
Qed.

(** The run of CollectHistoricalRanges on inputs within the range of
    std::chrono: the loop stops after some [k] turns, before which the end
    of the candidate has not wrapped around, and the ranges are collected
    from the candidate moved back [k] times. *)
Lemma run_within_range dateRange latestDate numYears :
  within_chrono_range dateRange latestDate = true ->
  let first := anchor dateRange latestDate in
  exists k,
    CollectHistoricalRanges dateRange latestDate numYears
    = Some (collect (N.to_nat (N.max 1 numYears)) (years_back k first))
    /\ ymd_ltb (snd (years_back k first)) latestDate = true
    /\ (forall j, (j < k)%nat -> ymd_leb latestDate (snd (years_back j first)) = true)
    /\ (forall j, (j <= k)%nat ->
          snd (years_back j first) = snd (earlier (Z.of_nat j) first)).
Proof.
  intros H first.
  destruct (anchor_in_short dateRange latestDate H) as [Hs He]. fold first in Hs, He.
  pose proof (proj1 (within_chrono_range_iff _ _) H) as (_ & Hl & _).
  destruct (go_back_stops latestDate all_years first) as [k (Hk & Hend & Hmin & Hyears)];
    [lia|exact He| |].
  { unfold all_years. rewrite Z2Nat.id by lia. unfold in_short in He. lia. }
  exists k. unfold CollectHistoricalRanges. fold first. rewrite Hk.
  split; [reflexivity|]. split; [now apply ymd_leb_false|]. split; [exact Hmin|].
  intros j Hj. specialize (Hyears j Hj).
  rewrite (years_back_fields j first Hs He) in Hyears |- *.
  cbn [snd year] in Hyears. unfold earlier; cbn [snd]. now rewrite Hyears.
Qed.




(** The scenario of the specification: latest date 2024-06-01 and the range
    2023-01-01 .. 2023-01-10 give the one range 2024-01-01 .. 2024-01-10. *)
Example CollectHistoricalRanges_scenario :
  CollectHistoricalRanges (ymd 2023 1 1, ymd 2023 1 10) (ymd 2024 6 1) 1
  = Some [(ymd 2024 1 1, ymd 2024 1 10)].
Proof. vm_compute. reflexivity. Qed.

(** The end of a range returned need not be a date of the calendar: the
    range 2019-03-01 .. 2020-02-29 with the latest date 2023-03-01 gives
    2022-03-01 .. 2023-02-29.  This end is before the latest date in the
    order of year_month_day, and converts to the day count of the latest
    date itself. *)
Example CollectHistoricalRanges_end_not_a_date :
  CollectHistoricalRanges (ymd 2019 3 1, ymd 2020 2 29) (ymd 2023 3 1) 1
  = Some [(ymd 2022 3 1, ymd 2023 2 29)]
  /\ ymd_ltb (ymd 2023 2 29) (ymd 2023 3 1) = true
  /\ to_sys_days (ymd 2023 2 29) = to_sys_days (ymd 2023 3 1).
Proof. vm_compute. repeat split. Qed.

(** Beyond the years of std::chrono the year wraps around: with 34794
    ranges asked for, the last one lies in the year 32767, after the
    latest date. *)
Example CollectHistoricalRanges_year_wraps :
  option_map (fun out => nth_error out (Z.to_nat 34793))
    (CollectHistoricalRanges (ymd 2023 1 1, ymd 2023 1 10) (ymd 2024 6 1) 34794)
  = Some (Some (ymd 32767 1 1, ymd 32767 1 10))
  /\ ymd_ltb (ymd 32767 1 10) (ymd 2024 6 1) = false.
Proof. vm_compute. split; reflexivity. Qed.

(** With a latest date in the year -32768, which is not a year of
    std::chrono, the loop can turn for ever. *)
Example CollectHistoricalRanges_never_returns :
  CollectHistoricalRanges (ymd 2023 1 1, ymd 2023 1 10) (ymd (-32768) 1 1) 1 = None.
Proof. vm_compute. reflexivity. Qed.

End OpenMeteoFacts.

(** ** ExtractRelationIds and ExtractNodes *)

Module OverpassFacts.
Import Json Overpass.

Open Scope string_scope.

Lemma is_empty_false (s : string) : s <> EmptyString -> is_empty s = false.
Proof. destruct s; [congruence|reflexivity]. Qed.

(** The loop keeps, in order, the ids of the elements that are typed
    "relation" and carry a non-null id. *)
Lemma relation_ids_filter elements :
  relation_ids elements
  = map id_of (filter (fun e => has_id e && is_relation e) elements).
Proof.
  induction elements as [|e rest IH]; [reflexivity|].
  cbn [relation_ids filter]. fold (has_id e) (is_relation e).
  destruct (has_id e && is_relation e); cbn [map]; now rewrite IH.
Qed.

Lemma filter_none {A} (f : A -> bool) (l : list A) :
  (forall x, In x l -> f x = false) -> filter f l = [].
Proof.
  induction l as [|x l IH]; intro H; [reflexivity|].
  cbn [filter]. rewrite (H x (or_introl eq_refl)). apply IH.
  intros y Hy. apply H. now right.
Qed.

Lemma filter_same {A} (f g : A -> bool) (l : list A) :
  (forall x, In x l -> f x = g x) -> filter f l = filter g l.
Proof.
  induction l as [|x l IH]; intro H; [reflexivity|].
  cbn [filter]. rewrite (H x (or_introl eq_refl)).
  rewrite IH; [reflexivity|]. intros y Hy. apply H. now right.
Qed.

Section WithParser.

Variable Parse : string -> Value.

Lemma ExtractRelationIds_elements json members elements :
  json <> EmptyString ->
  Parse json = kObject members ->
  FindMember members "elements" = Some (kArray elements) ->
  ExtractRelationIds Parse json = Returned (relation_ids elements).
Proof.
  intros Hne Hdoc Hel. unfold ExtractRelationIds.
  rewrite (is_empty_false _ Hne), Hdoc. cbn [IsObject negb member].
  rewrite Hel. reflexivity.
Qed.

(** The empty text gives no ids and no nodes. *)
Lemma Extract_empty_text :
  ExtractRelationIds Parse EmptyString = Returned []
  /\ ExtractNodes Parse EmptyString = Returned [].
Proof. split; reflexivity. Qed.

(** A text whose document is not an object, as after a parse error, gives
    no ids and no nodes. *)
Lemma Extract_not_object json :
  IsObject (Parse json) = false ->
  ExtractRelationIds Parse json = Returned []
  /\ ExtractNodes Parse json = Returned [].
Proof.
  intro H. unfold ExtractRelationIds, ExtractNodes. rewrite H.
  destruct (is_empty json); split; reflexivity.
Qed.

(** C7 (as the code has it): for a document with an "elements" array,
    ExtractRelationIds returns, in element order, the ids of the elements
    that are typed "relation" and carry a non-null id; a document with only
    non-relation elements gives the empty sequence; when each of the N
    relation-typed elements carries an id, N ids are returned. *)
Theorem ExtractRelationIds_relations json members elements :
  json <> EmptyString ->
  Parse json = kObject members ->
  FindMember members "elements" = Some (kArray elements) ->
  ExtractRelationIds Parse json
  = Returned (map id_of (filter (fun e => has_id e && is_relation e) elements))
  /\ ((forall e, In e elements -> is_relation e = false) ->
      ExtractRelationIds Parse json = Returned [])
  /\ ((forall e, In e elements -> is_relation e = true -> has_id e = true) ->
      exists ids, ExtractRelationIds Parse json = Returned ids
                  /\ ids = map id_of (filter is_relation elements)
                  /\ List.length ids = List.length (filter is_relation elements)).
Proof.
  intros Hne Hdoc Hel.
  rewrite (ExtractRelationIds_elements json members elements Hne Hdoc Hel).
  rewrite relation_ids_filter.
  split; [reflexivity|]. split.
  - intro Hnone. rewrite filter_none; [reflexivity|].
    intros e He. rewrite (Hnone e He). apply andb_false_r.
  - intro Hids. eexists. split; [reflexivity|].
    assert (Hf : filter (fun e => has_id e && is_relation e) elements
                 = filter is_relation elements).
    { apply filter_same. intros e He.
      destruct (is_relation e) eqn:Hr; [|apply andb_false_r].
      now rewrite (Hids e He Hr). }
    rewrite Hf. split; [reflexivity|]. apply length_map.
Qed.

(** C8 at documents without an "elements" member: both extractors reach
    RAPIDJSON_ASSERT in operator[] and do not return. *)
Theorem Extract_missing_elements json members :
  json <> EmptyString ->
  Parse json = kObject members ->
  FindMember members "elements" = None ->
  ExtractRelationIds Parse json = AssertionFailed
  /\ ExtractNodes Parse json = AssertionFailed.
Proof.
  intros Hne Hdoc Hel. unfold ExtractRelationIds, ExtractNodes.
  rewrite (is_empty_false _ Hne), Hdoc. cbn [IsObject negb member].
  rewrite Hel. split; reflexivity.
Qed.

(** An "elements" member that is not an array fails GetArray's assertion. *)
Lemma Extract_elements_not_array json members v :
  json <> EmptyString ->
  Parse json = kObject members ->
  FindMember members "elements" = Some v ->
  GetArray v = AssertionFailed ->
  ExtractRelationIds Parse json = AssertionFailed
  /\ ExtractNodes Parse json = AssertionFailed.
Proof.
  intros Hne Hdoc Hel Harr. unfold ExtractRelationIds, ExtractNodes.
  rewrite (is_empty_false _ Hne), Hdoc. cbn [IsObject negb member].
  rewrite Hel. cbn [obind]. rewrite Harr. split; reflexivity.
Qed.

(** ExtractRelationIds fails an assertion exactly on a non-empty text
    whose document is an object without an "elements" array. *)
Lemma ExtractRelationIds_asserts_iff json :
  ExtractRelationIds Parse json = AssertionFailed
  <-> json <> EmptyString
      /\ exists members,
           Parse json = kObject members
           /\ forall items, FindMember members "elements" <> Some (kArray items).
Proof.
  unfold ExtractRelationIds. split.
  - destruct json as [|c json]; cbn [is_empty]; [discriminate|].
    intro H. split; [discriminate|].
    destruct (Parse (String c json)) as [| | | | | |members]; cbn in H; try discriminate H.
    exists members. split; [reflexivity|]. intros items Hel.
    rewrite Hel in H. discriminate H.
  - intros [Hne [members [Hdoc Hel]]].
    rewrite (is_empty_false _ Hne), Hdoc. cbn [IsObject negb member].
    destruct (FindMember members "elements") as [v|]; [|reflexivity].
    destruct v; try reflexivity. now specialize (Hel items).
Qed.

End WithParser.

(** ExtractNodes on a node with two tags and a relation, and on a node
    whose tag value is a number, where Value::GetString asserts. *)
Example ExtractNodes_sample :
  let node tagValue :=
    kObject [("type", kString "node"); ("lat", kDouble 10.5); ("lon", kInt 20);
             ("tags", kObject [("tourism", kString "museum"); ("name", tagValue)])] in
  ExtractNodes (fun _ => Scenario.document_of
                           [node (kString "Louvre"); Scenario.relation_element 7])
    "response"
  = Returned [mkOsmNode 10.5 (inject_Z 20) [("tourism", "museum"); ("name", "Louvre")]]
  /\ ExtractNodes (fun _ => Scenario.document_of [node (kInt 1)]) "response"
     = AssertionFailed.
Proof. split; reflexivity. Qed.

Lemma ExtractRelationIds_relations_witness :
  let elements := [Scenario.relation_element 7; Scenario.node_element 3;
                   Scenario.relation_element 9] in
  ExtractRelationIds (fun _ => Scenario.document_of elements) "response"
  = Returned [7; 9]%Z.
Proof.
  intro elements.
  assert (Hne : "response" <> EmptyString) by discriminate.
  exact (proj1 (ExtractRelationIds_relations (fun _ => Scenario.document_of elements)
                  "response" _ elements Hne eq_refl eq_refl)).
Defined.

(** C7 as stated fails: a document whose one element is typed "relation"
    and has a null id holds N = 1 relation-typed elements and gives no id.
    The same holds for a relation-typed element without an "id" member. *)
Lemma ExtractRelationIds_relation_without_id :
  let elements := [kObject [("type", kString "relation"); ("id", kNull)]] in
  List.length (filter is_relation elements) = 1%nat
  /\ ExtractRelationIds (fun _ => Scenario.document_of elements) "response" = Returned []
  /\ ExtractRelationIds
       (fun _ => Scenario.document_of [kObject [("type", kString "relation")]])
       "response" = Returned [].
Proof. repeat split; reflexivity. Qed.

Lemma Extract_missing_elements_witness :
  ExtractRelationIds (fun _ => kObject []) "{}" = AssertionFailed
  /\ ExtractNodes (fun _ => kObject []) "{}" = AssertionFailed.
Proof.
  assert (Hne : "{}" <> EmptyString) by discriminate.
  exact (Extract_missing_elements (fun _ => kObject []) "{}" [] Hne eq_refl eq_refl).
Defined.

End OverpassFacts.

(** ** The composer, the bounding-box check and the region search *)

Module SearchEngineFacts.
Import Json Overpass SearchEngine Scenario.

Open Scope string_scope.

(** *** Texts *)

Lemma append_nil_inv (s t : string) : s ++ t = EmptyString -> t = EmptyString.
Proof. destruct s; cbn; [auto|discriminate]. Qed.

Lemma append_self_inv (s t : string) : s ++ t = s -> t = EmptyString.
Proof.
  induction s as [|c s IH]; cbn; [auto|].
  intro H. injection H as H. auto.
Qed.

Lemma requestRelationsByNodes_not_empty a0 a1 a2 a3 a4 :
  requestRelationsByNodes a0 a1 a2 a3 a4 <> EmptyString.
Proof.
  unfold requestRelationsByNodes. intro H.
  apply append_nil_inv in H. discriminate.
Qed.

(** A request that got one sub-query differs from the bare header. *)
Lemma header_with_subquery a0 a1 a2 a3 a4 :
  String.eqb (sz_requestHeader ++ requestRelationsByNodes a0 a1 a2 a3 a4) sz_requestHeader
  = false.
Proof.
  apply String.eqb_neq. intro H. apply append_self_inv in H.
  now apply requestRelationsByNodes_not_empty in H.
Qed.

Lemma off_when_absurd (b : bool) : (b = true -> false = true) -> b = false.
Proof. destruct b; intro H; [discriminate (H eq_refl)|reflexivity]. Qed.

Section Composer.

Variable X : Externals.

(** The categories that are off, or on without their parameter, leave the
    request as it is. *)
Lemma all_lacking prefs :
  (forall c, enabled X prefs c = true -> lacks_parameter prefs c = true) ->
  has (objects prefs) (GEOGRAPHICAL_FEATURE_INTERNATIONAL_AIRPORTS X) = false
  /\ has (objects prefs) (GEOGRAPHICAL_FEATURE_SEA_BEACHES X) = false
  /\ has (objects prefs) (GEOGRAPHICAL_FEATURE_SALT_LAKES X) = false
  /\ (has (objects prefs) (GEOGRAPHICAL_FEATURE_PEAKS X) = false
      \/ find (properties prefs) "minPeakHeight" = None).
Proof.
  intro H.
  pose proof (H Airports) as Ha. pose proof (H SeaBeaches) as Hs.
  pose proof (H SaltLakes) as Hl. pose proof (H Peaks) as Hp.
  unfold enabled, lacks_parameter in Ha, Hs, Hl, Hp. cbn in Ha, Hs, Hl, Hp.
  repeat split; try (apply off_when_absurd; assumption).
  destruct (has (objects prefs) (GEOGRAPHICAL_FEATURE_PEAKS X)); [|now left].
  right. destruct (find _ _); [discriminate (Hp eq_refl)|reflexivity].
Qed.

Lemma formatRegionsRequest_empty prefs boundingBox :
  (forall c, enabled X prefs c = true -> lacks_parameter prefs c = true) ->
  formatRegionsRequest X prefs boundingBox = EmptyString.
Proof.
  intro H. destruct (all_lacking prefs H) as (Ha & Hs & Hl & Hp).
  unfold formatRegionsRequest. rewrite Ha, Hs, Hl.
  destruct Hp as [Hp|Hp]; rewrite Hp.
  - reflexivity.
  - destruct (has (objects prefs) (GEOGRAPHICAL_FEATURE_PEAKS X)); reflexivity.
Qed.

(** A step whose composed request is empty returns nothing and leaves the
    session, the list of calls included, as it was. *)
Lemma empty_request_no_call W bbox prefs s :
  formatRegionsRequest X prefs bbox = EmptyString ->
  IncrementalSearchHandler X W bbox prefs s = Returned ([], s).
Proof.
  intro H. unfold IncrementalSearchHandler, findRegions, bind.
  rewrite H. cbn [is_empty].
  destruct (negb (isValidBoundingBox X bbox)); reflexivity.
Qed.

(** C4: when every enabled category lacks a required parameter, which
    includes the case that no category is enabled, formatRegionsRequest
    returns the empty text, and a step returns nothing without any call to
    the transport. *)
Theorem no_usable_category_no_request prefs bbox :
  (forall c, enabled X prefs c = true -> lacks_parameter prefs c = true) ->
  formatRegionsRequest X prefs bbox = EmptyString
  /\ forall W s, IncrementalSearchHandler X W bbox prefs s = Returned ([], s).
Proof.
  intro H. pose proof (formatRegionsRequest_empty prefs bbox H) as He.
  split; [exact He|].
  intros W s. now apply empty_request_no_call.
Qed.

(** C5 at preferences with only salt lakes enabled: the sub-query stores
    its relations under the label of the sea beaches, [.relS], and the
    final segment intersects the label [.relL], which no sub-query wrote. *)
Theorem salt_lakes_label_mismatch prefs bbox :
  enabled X prefs SaltLakes = true ->
  enabled X prefs Airports = false ->
  enabled X prefs Peaks = false ->
  enabled X prefs SeaBeaches = false ->
  formatRegionsRequest X prefs bbox
  = (((sz_requestHeader
       ++ requestRelationsByNodes (nodeSaltLakesDef (boundingBoxStr X bbox))
            ".nodesL" ".areasL" sz_regionsTags ".relS")
      ++ "rel") ++ ".relL") ++ ";out tags;".
Proof.
  unfold enabled, flag_of. intros Hl Ha Hp Hs.
  unfold formatRegionsRequest. rewrite Hl, Ha, Hp, Hs.
  cbv zeta. rewrite header_with_subquery. reflexivity.
Qed.

(** The same for two categories: with airports and peaks enabled but no
    "minPeakHeight" property, only the airports sub-query is written, and
    the final segment still intersects the peaks label [.relP]. *)
Lemma peaks_label_without_subquery prefs bbox :
  enabled X prefs Airports = true ->
  enabled X prefs Peaks = true ->
  enabled X prefs SeaBeaches = false ->
  enabled X prefs SaltLakes = false ->
  find (properties prefs) "minPeakHeight" = None ->
  formatRegionsRequest X prefs bbox
  = ((((sz_requestHeader
        ++ requestRelationsByNodes (nodeAirportsDef (boundingBoxStr X bbox))
             ".nodesA" ".areasA" sz_regionsTags ".relA")
       ++ "rel") ++ ".relA") ++ ".relP") ++ ";out tags;".
Proof.
  unfold enabled, flag_of. intros Ha Hp Hs Hl Hf.
  unfold formatRegionsRequest. rewrite Hl, Ha, Hp, Hs, Hf.
  cbv zeta. rewrite header_with_subquery. reflexivity.
Qed.

(** C9 (as the code has it): with only peaks enabled, the property
    minPeakHeight="3000" and a box whose slots 0, 2, 1, 3 (south, west,
    north, east) print as 10, 10, 10.5, 10.5, the request is the header,
    the peaks sub-query with the elevation filter above 3000 over the box
    text "10, 10, 10.5, 10.5" (a comma and a space between the numbers),
    and the final segment over [.relP]. *)
Theorem peaks_request_text prefs bbox :
  enabled X prefs Peaks = true ->
  enabled X prefs Airports = false ->
  enabled X prefs SeaBeaches = false ->
  enabled X prefs SaltLakes = false ->
  find (properties prefs) "minPeakHeight" = Some "3000" ->
  format_double X (at0 bbox) = "10" ->
  format_double X (at2 bbox) = "10" ->
  format_double X (at1 bbox) = "10.5" ->
  format_double X (at3 bbox) = "10.5" ->
  formatRegionsRequest X prefs bbox
  = "[out:json][timeout:180];"
    ++ "node[natural=peak][name](10, 10, 10.5, 10.5)"
    ++ "(if: is_number(t[" ++ quoted "ele" ++ "]) && number(t[" ++ quoted "ele"
    ++ "]) > 3000)"
    ++ " -> .nodesP;.nodesP is_in -> .areasP;"
    ++ "rel(pivot.areasP)[boundary=administrative][admin_level=4] -> .relP;"
    ++ "rel.relP;out tags;".
Proof.
  unfold enabled, flag_of. intros Hp Ha Hs Hl Hf H0 H2 H1 H3.
  unfold formatRegionsRequest, boundingBoxStr. rewrite Hl, Ha, Hp, Hs, Hf, H0, H1, H2, H3.
  cbv zeta. rewrite header_with_subquery. vm_compute. reflexivity.
Qed.

(** *** The bounding-box check *)


Lemma Qltb_true (a b : Q) : (a < b)%Q -> Qltb a b = true.
Proof. unfold Qlt, Qltb. intro H. apply Z.ltb_lt. exact H. Qed.

(** The check passes exactly when both dimensions are below 2001 km. *)
Lemma isValidBoundingBox_iff bbox :
  isValidBoundingBox X bbox = true
  <-> (fst (GetBoundingBoxDimensionsKm X bbox) < 2001)%Q
      /\ (snd (GetBoundingBoxDimensionsKm X bbox) < 2001)%Q.
Proof.
  unfold isValidBoundingBox.
  destruct (GetBoundingBoxDimensionsKm X bbox) as [widthKm heightKm]; cbn [fst snd].
  rewrite andb_true_iff. unfold Qltb, Qlt.
  rewrite !Z.ltb_lt. reflexivity.
Qed.


(** For dimensions in whole kilometres the bound of the specification and
    the bound of the code agree: more than 2000 is 2001 or more. *)
Lemma whole_km_bound (km : Z) : (2000 < inject_Z km)%Q -> (2001 <= inject_Z km)%Q.
Proof. unfold Qlt, Qle; cbn. lia. Qed.

End Composer.

(** *** The processed set *)

Lemma in_set_insert x s y : In y (set_insert x s) <-> y = x \/ In y s.
Proof.
  induction s as [|z s IH]; cbn [set_insert].
  - cbn. intuition.
  - destruct (Z.ltb_spec x z); [cbn; intuition|].
    destruct (Z.ltb_spec z x).
    + cbn [In]. rewrite IH. intuition.
    + assert (x = z) by lia. subst z. cbn [In]. intuition.
Qed.

Lemma in_set_insert_range ids : forall s y,
  In y (set_insert_range ids s) <-> In y ids \/ In y s.
Proof.
  unfold set_insert_range.
  induction ids as [|x ids IH]; intros s y; cbn [fold_left].
  - cbn. intuition.
  - rewrite IH, in_set_insert. cbn [In]. intuition.
Qed.

Lemma set_insert_increasing x s :
  StronglySorted Z.lt s -> StronglySorted Z.lt (set_insert x s).
Proof.
  induction s as [|z s IH]; intro S; cbn [set_insert].
  - constructor; constructor.
  - pose proof (StronglySorted_inv S) as [St Hall].
    rewrite Forall_forall in Hall.
    destruct (Z.ltb_spec x z); [|destruct (Z.ltb_spec z x)].
    + constructor; [exact S|]. constructor; [assumption|].
      rewrite Forall_forall. intros y Hy. specialize (Hall y Hy). lia.
    + constructor; [now apply IH|].
      rewrite Forall_forall. intros y Hy. apply in_set_insert in Hy.
      destruct Hy as [->|Hy]; [lia|]. now apply Hall.
    + exact S.
Qed.

(** The processed set stays a set, strictly increasing, under insertion. *)
Lemma set_insert_range_increasing ids : forall s,
  StronglySorted Z.lt s -> StronglySorted Z.lt (set_insert_range ids s).
Proof.
  unfold set_insert_range.
  induction ids as [|x ids IH]; intros s S; cbn [fold_left]; [exact S|].
  apply IH. now apply set_insert_increasing.
Qed.

(** *** std::sort and std::set_difference *)

Lemma in_sorted_insert x l y : In y (sorted_insert x l) <-> y = x \/ In y l.
Proof.
  induction l as [|z l IH]; cbn [sorted_insert].
  - cbn. intuition.
  - destruct (x <=? z)%Z; cbn [In]; [intuition|]. rewrite IH. intuition.
Qed.

Lemma in_sort l y : In y (sort l) <-> In y l.
Proof.
  unfold sort. induction l as [|x l IH]; cbn [fold_right]; [reflexivity|].
  rewrite in_sorted_insert, IH. cbn [In]. intuition.
Qed.

Lemma sorted_insert_increasing x l :
  StronglySorted Z.lt l -> ~ In x l -> StronglySorted Z.lt (sorted_insert x l).
Proof.
  induction l as [|z l IH]; intros S Hn; cbn [sorted_insert].
  - constructor; constructor.
  - pose proof (StronglySorted_inv S) as [St Hall].
    rewrite Forall_forall in Hall.
    destruct (Z.leb_spec x z).
    + assert (x < z)%Z by (cbn in Hn; lia).
      constructor; [exact S|]. constructor; [assumption|].
      rewrite Forall_forall. intros y Hy. specialize (Hall y Hy). lia.
    + constructor.
      * apply IH; [exact St|]. cbn in Hn. tauto.
      * rewrite Forall_forall. intros y Hy. apply in_sorted_insert in Hy.
        destruct Hy as [->|Hy]; [lia|]. now apply Hall.
Qed.

(** Sorting ids without repetition gives a strictly increasing list. *)
Lemma sort_increasing l : NoDup l -> StronglySorted Z.lt (sort l).
Proof.
  unfold sort. induction l as [|x l IH]; intro N; cbn [fold_right].
  - constructor.
  - inversion N as [|? ? Hx N']; subst.
    apply sorted_insert_increasing; [now apply IH|].
    fold (sort l). now rewrite in_sort.
Qed.

Lemma set_difference_nil l2 : set_difference [] l2 = [].
Proof. destruct l2; reflexivity. Qed.

Lemma set_difference_nil_r l1 : set_difference l1 [] = l1.
Proof. destruct l1; reflexivity. Qed.

Lemma set_difference_cons a l1 b l2 :
  set_difference (a :: l1) (b :: l2)
  = if (a <? b)%Z then a :: set_difference l1 (b :: l2)
    else if (b <? a)%Z then set_difference (a :: l1) l2
    else set_difference l1 l2.
Proof. reflexivity. Qed.

Lemma above_head (a : Z) l x :
  StronglySorted Z.lt (a :: l) -> In x l -> (a < x)%Z.
Proof.
  intros S Hin. apply StronglySorted_inv in S. destruct S as [_ Hall].
  rewrite Forall_forall in Hall. now apply Hall.
Qed.

Lemma increasing_tail (a : Z) l :
  StronglySorted Z.lt (a :: l) -> StronglySorted Z.lt l.
Proof. intro S. now apply StronglySorted_inv in S. Qed.

(** On strictly increasing lists the two cursors compute the difference of
    sets. *)
Lemma set_difference_spec l1 :
  StronglySorted Z.lt l1 ->
  forall l2, StronglySorted Z.lt l2 ->
  forall x, In x (set_difference l1 l2) <-> In x l1 /\ ~ In x l2.
Proof.
  induction l1 as [|a l1 IH1]; intros S1.
  - intros l2 _ x. rewrite set_difference_nil. cbn. tauto.
  - induction l2 as [|b l2 IH2]; intros S2 x.
    + rewrite set_difference_nil_r. cbn. tauto.
    + rewrite set_difference_cons.
      pose proof (above_head a l1) as Ha. pose proof (above_head b l2) as Hb.
      destruct (Z.ltb_spec a b); [|destruct (Z.ltb_spec b a)].
      * cbn [In]. rewrite (IH1 (increasing_tail _ _ S1) (b :: l2) S2). cbn [In].
        split.
        -- intros [<-|[Hx Hn]]; [|tauto].
           split; [now left|]. intros [Hab|Hin]; [lia|].
           specialize (Hb a S2 Hin). lia.
        -- intros [[<-|Hx] Hn]; [now left|]. right. tauto.
      * rewrite (IH2 (increasing_tail _ _ S2)). cbn [In].
        split.
        -- intros [Hx Hn]. split; [exact Hx|]. intros [<-|Hin]; [|tauto].
           destruct Hx as [Hx|Hx]; [lia|]. specialize (Ha b S1 Hx). lia.
        -- tauto.
      * assert (a = b) by lia. subst b.
        rewrite (IH1 (increasing_tail _ _ S1) l2 (increasing_tail _ _ S2)). cbn [In].
        split.
        -- intros [Hx Hn]. split; [now right|]. intros [<-|Hin]; [|tauto].
           specialize (Ha a S1 Hx). lia.
        -- intros [[<-|Hx] Hn]; tauto.
Qed.

(** The unseen ids of a response that lists no id twice are its ids that
    are not in the processed set. *)
Lemma unseen_spec relationIds s :
  NoDup relationIds ->
  StronglySorted Z.lt s ->
  forall x, In x (unseen relationIds s) <-> In x relationIds /\ ~ In x s.
Proof.
  intros N S x. unfold unseen.
  rewrite (set_difference_spec _ (sort_increasing _ N) _ S), in_sort. reflexivity.
Qed.

(** An id the response lists twice passes the difference once even when it
    is in the processed set. *)
Example unseen_repeated_id : unseen [2; 2]%Z [2]%Z = [2]%Z.
Proof. reflexivity. Qed.

(** *** findRegions *)

Section Regions.

Variable X : Externals.

(** The last part of findRegions on an empty id list: the lookup is made,
    its answer is returned, and [processed] stays as it is. *)
Lemma lookupAndRecord_nil W s :
  lookupAndRecord W [] s
  = Returned (LookupRelationInformation W [],
              mkSession (processed s) (calls s ++ [LookupCall []])).
Proof.
  unfold lookupAndRecord, lookup, record_call, insert_processed, bind, ret.
  cbn [processed calls].
  destruct (LookupRelationInformation W []) as [|i infos]; reflexivity.
Qed.

(** What findRegions does, case by case. *)
Lemma findRegions_cases W bbox prefs s :
  findRegions X W bbox prefs s
  = if negb (isValidBoundingBox X bbox) then Returned ([], s)
    else
      let request := formatRegionsRequest X prefs bbox in
      if is_empty request then Returned ([], s)
      else
        match ExtractRelationIds (Parse X) (Post W request) with
        | AssertionFailed => AssertionFailed
        | Returned (_ :: _) =>
            Returned ([], mkSession (processed s) (calls s ++ [PostCall request]))
        | Returned [] =>
            Returned (LookupRelationInformation W [],
                      mkSession (processed s)
                        ((calls s ++ [PostCall request]) ++ [LookupCall []]))
        end.
Proof.
  unfold findRegions.
  destruct (negb (isValidBoundingBox X bbox)); [reflexivity|].
  cbv zeta. destruct (is_empty (formatRegionsRequest X prefs bbox)); [reflexivity|].
  unfold bind at 1. unfold post, record_call, bind, ret. cbn [processed calls].
  unfold lift.
  destruct (ExtractRelationIds (Parse X) (Post W (formatRegionsRequest X prefs bbox)))
    as [[|id ids]|]; cbn; [|reflexivity|reflexivity].
  unfold get_processed. cbn [processed sort fold_right].
  rewrite set_difference_nil. cbn [empty negb].
  rewrite lookupAndRecord_nil. reflexivity.
Qed.

(** One step leaves [processed] as it was, and hands the geocoding
    collaborator no id. *)
Lemma step_keeps_processed W bbox prefs s out s' :
  IncrementalSearchHandler X W bbox prefs s = Returned (out, s') ->
  processed s' = processed s
  /\ forall ids, In (LookupCall ids) (calls s') -> In (LookupCall ids) (calls s) \/ ids = [].
Proof.
  unfold IncrementalSearchHandler, bind. rewrite findRegions_cases.
  destruct (negb (isValidBoundingBox X bbox)).
  { unfold ret. intro H. injection H as _ <-. split; [reflexivity|]. intros ids Hin. now left. }
  cbv zeta. destruct (is_empty (formatRegionsRequest X prefs bbox)).
  { unfold ret. intro H. injection H as _ <-. split; [reflexivity|]. intros ids Hin. now left. }
  destruct (ExtractRelationIds _ _) as [[|id ids]|]; [| |discriminate];
    unfold ret; intro H; injection H as _ <-; cbn [processed calls];
    (split; [reflexivity|]); intros ids' Hin.
  - apply in_app_or in Hin. destruct Hin as [Hin|Hin].
    + apply in_app_or in Hin. destruct Hin as [Hin|Hin]; [now left|].
      destruct Hin as [Hin|[]]. discriminate.
    + destruct Hin as [Hin|[]]. injection Hin as <-. now right.
  - apply in_app_or in Hin. destruct Hin as [Hin|Hin]; [now left|].
    destruct Hin as [Hin|[]]. discriminate.
Qed.

(** A step returns unless the extractor trips an assertion on the response. *)
Lemma step_returns W bbox prefs s :
  ExtractRelationIds (Parse X) (Post W (formatRegionsRequest X prefs bbox))
  <> AssertionFailed ->
  exists out s', IncrementalSearchHandler X W bbox prefs s = Returned (out, s').
Proof.
  intro Hok. unfold IncrementalSearchHandler, bind. rewrite findRegions_cases.
  destruct (negb (isValidBoundingBox X bbox)); [eexists; eexists; reflexivity|].
  cbv zeta. destruct (is_empty (formatRegionsRequest X prefs bbox));
    [eexists; eexists; reflexivity|].
  destruct (ExtractRelationIds _ _) as [[|id ids]|];
    [eexists; eexists; reflexivity|eexists; eexists; reflexivity|congruence].
Qed.

(** A step in which the response lists at least one relation returns no
    place, whatever the processed set and the geocoding collaborator. *)
Lemma found_relations_dropped W bbox prefs s out s' id ids :
  ExtractRelationIds (Parse X) (Post W (formatRegionsRequest X prefs bbox))
  = Returned (id :: ids) ->
  IncrementalSearchHandler X W bbox prefs s = Returned (out, s') ->
  out = [].
Proof.
  intros Hids. unfold IncrementalSearchHandler, bind. rewrite findRegions_cases.
  destruct (negb (isValidBoundingBox X bbox)).
  { unfold ret. intro H. now injection H as <- _. }
  cbv zeta. destruct (is_empty (formatRegionsRequest X prefs bbox)).
  { unfold ret. intro H. now injection H as <- _. }
  rewrite Hids. unfold ret. intro H. now injection H as <- _.
Qed.

(** C10: over any sequence of steps of a session, [processed] at the end
    is [processed] at the start, and every lookup handed to the geocoding
    collaborator during the steps carries the empty id list, so the
    insertion after it adds nothing. *)
Theorem processed_never_grows steps : forall s outs s',
  run X steps s = Returned (outs, s') ->
  processed s' = processed s
  /\ forall ids, In (LookupCall ids) (calls s') -> In (LookupCall ids) (calls s) \/ ids = [].
Proof.
  induction steps as [|[[W bbox] prefs] rest IH]; intros s outs s' Hrun.
  - cbn in Hrun. unfold ret in Hrun. injection Hrun as _ <-.
    split; [reflexivity|]. intros ids Hin. now left.
  - cbn [run] in Hrun. unfold bind at 1 in Hrun.
    destruct (IncrementalSearchHandler X W bbox prefs s) as [[out s1]|] eqn:Hstep;
      [|discriminate].
    unfold bind at 1 in Hrun.
    destruct (run X rest s1) as [[outs1 s2]|] eqn:Hrest; [|discriminate].
    unfold ret in Hrun. injection Hrun as _ <-.
    destruct (step_keeps_processed _ _ _ _ _ _ Hstep) as [Hp1 Hc1].
    destruct (IH _ _ _ Hrest) as [Hp2 Hc2].
    split; [congruence|].
    intros ids Hin. destruct (Hc2 ids Hin) as [Hin1|Hnil]; [|now right].
    exact (Hc1 ids Hin1).
Qed.

(** The last part of findRegions taken by itself: when the geocoding
    collaborator returns at least one record the ids handed to it are all
    added to [processed], resolved or not, and nothing is removed; when it
    returns no record nothing is returned and [processed] is left as it
    was.  (findRegions reaches this part with the empty id list only.) *)
Lemma lookupAndRecord_marks W relationIdsToProcess s :
  (LookupRelationInformation W relationIdsToProcess <> [] ->
   exists s',
     lookupAndRecord W relationIdsToProcess s
     = Returned (LookupRelationInformation W relationIdsToProcess, s')
     /\ forall id, In id (processed s') <->
                   In id relationIdsToProcess \/ In id (processed s))
  /\ (LookupRelationInformation W relationIdsToProcess = [] ->
      exists s',
        lookupAndRecord W relationIdsToProcess s = Returned ([], s')
        /\ processed s' = processed s).
Proof.
  unfold lookupAndRecord, lookup, record_call, insert_processed, bind, ret.
  cbn [processed calls].
  destruct (LookupRelationInformation W relationIdsToProcess) as [|i infos].
  - split; [congruence|]. intros _. eexists. split; reflexivity.
  - split; [|discriminate]. intros _. cbn [empty]. eexists. split; [reflexivity|].
    cbn [processed]. intro id. apply in_set_insert_range.
Qed.

(** C6 at a step whose response lists relations: findRegions returns at
    [if (relationIds.size()) return {};], before the set difference, the
    lookup and the insertion into [processed].  The step returns no place,
    its one call is the post of the request, and [processed] is left as it
    was: an id of the response that is not in the set is not in it after
    the step either, whatever the geocoding collaborator would resolve. *)
Theorem listed_ids_stay_unmarked W bbox prefs s id ids :
  isValidBoundingBox X bbox = true ->
  formatRegionsRequest X prefs bbox <> EmptyString ->
  ExtractRelationIds (Parse X) (Post W (formatRegionsRequest X prefs bbox))
  = Returned (id :: ids) ->
  exists s',
    IncrementalSearchHandler X W bbox prefs s = Returned ([], s')
    /\ processed s' = processed s
    /\ calls s' = (calls s ++ [PostCall (formatRegionsRequest X prefs bbox)])%list
    /\ forall x, In x (id :: ids) -> ~ In x (processed s) -> ~ In x (processed s').
Proof.
  intros Hv Hne Hids. unfold IncrementalSearchHandler, bind. rewrite findRegions_cases.
  rewrite Hv. cbn [negb]. cbv zeta.
  destruct (formatRegionsRequest X prefs bbox) as [|c r] eqn:Hr; [congruence|].
  cbn [is_empty]. rewrite Hids. unfold ret. cbn [map].
  eexists. split; [reflexivity|]. cbn [processed calls].
  split; [reflexivity|]. split; [reflexivity|]. intros x _ Hx. exact Hx.
Qed.

End Regions.

(** *** Worked scenarios *)

Lemma no_usable_category_no_request_witness :
  let X := externals (5, 5)%Q kNull in
  let prefs := only 2 [] in
  formatRegionsRequest X prefs box_snwe = EmptyString
  /\ forall W s, IncrementalSearchHandler X W box_snwe prefs s = Returned ([], s).
Proof.
  intros X prefs.
  apply (no_usable_category_no_request X prefs box_snwe).
  intros c H. destruct c; vm_compute in H; try discriminate H. reflexivity.
Defined.

Lemma salt_lakes_label_mismatch_witness :
  formatRegionsRequest (externals (5, 5)%Q kNull) (only 8 []) box_snwe
  = "[out:json][timeout:180];"
    ++ "wr[natural=water][water=lake][salt=no][name](10, 10, 10.5, 10.5) -> .outL;"
    ++ ".outL > -> .outL;node.outL(10, 10, 10.5, 10.5)"
    ++ " -> .nodesL;.nodesL is_in -> .areasL;"
    ++ "rel(pivot.areasL)[boundary=administrative][admin_level=4] -> .relS;"
    ++ "rel.relL;out tags;".
Proof.
  exact (salt_lakes_label_mismatch (externals (5, 5)%Q kNull) (only 8 []) box_snwe
           eq_refl eq_refl eq_refl eq_refl).
Defined.

(** With only salt lakes enabled no sub-query writes [.relL], the label the
    final segment reads. *)
Example salt_lakes_label_never_written :
  let request := formatRegionsRequest (externals (5, 5)%Q kNull) (only 8 []) box_snwe in
  contains "-> .relL;" request = false
  /\ contains "-> .relS;" request = true
  /\ contains "rel.relL;out tags;" request = true.
Proof. vm_compute. repeat split. Qed.

Lemma peaks_request_text_witness :
  formatRegionsRequest (externals (5, 5)%Q kNull)
    (only 2 [("minPeakHeight", "3000")]) box_snwe
  = "[out:json][timeout:180];"
    ++ "node[natural=peak][name](10, 10, 10.5, 10.5)"
    ++ "(if: is_number(t[" ++ quoted "ele" ++ "]) && number(t[" ++ quoted "ele"
    ++ "]) > 3000)"
    ++ " -> .nodesP;.nodesP is_in -> .areasP;"
    ++ "rel(pivot.areasP)[boundary=administrative][admin_level=4] -> .relP;"
    ++ "rel.relP;out tags;".
Proof.
  exact (peaks_request_text (externals (5, 5)%Q kNull)
           (only 2 [("minPeakHeight", "3000")]) box_snwe
           eq_refl eq_refl eq_refl eq_refl eq_refl eq_refl eq_refl eq_refl eq_refl).
Defined.

(** C9 as stated fails: the request for the box south=10, west=10,
    north=10.5, east=10.5 with only peaks enabled and minPeakHeight="3000"
    does not hold the text "10,10,10.5,10.5", in either slot order of the
    box; the numbers are separated by a comma and a space. *)
Lemma peaks_request_without_compact_box_text :
  let X := externals (5, 5)%Q kNull in
  let prefs := only 2 [("minPeakHeight", "3000")] in
  contains "10,10,10.5,10.5" (formatRegionsRequest X prefs box_snwe) = false
  /\ contains "10,10,10.5,10.5" (formatRegionsRequest X prefs box_swne) = false
  /\ contains "(10, 10, 10.5, 10.5)" (formatRegionsRequest X prefs box_snwe) = true
  /\ contains "(10, 10.5, 10, 10.5)" (formatRegionsRequest X prefs box_swne) = true.
Proof. vm_compute. repeat split. Qed.



Lemma processed_never_grows_witness :
  let X := externals (5, 5)%Q (document_of []) in
  let W := collaborators "response" resolve_all in
  let step := (W, box_snwe, only 1 []) in
  exists outs s',
    run X [step; step] (mkSession [3; 8]%Z []) = Returned (outs, s')
    /\ processed s' = [3; 8]%Z.
Proof.
  intros X W step.
  destruct (run X [step; step] (mkSession [3; 8]%Z [])) as [[outs s']|] eqn:Hrun;
    [|vm_compute in Hrun; discriminate Hrun].
  exists outs, s'. split; [reflexivity|].
  exact (proj1 (processed_never_grows X [step; step] _ outs s' Hrun)).
Defined.

(** C1 at a response that lists relation 7 in both steps, with a geocoding
    collaborator that resolves it: the place of relation 7 is returned by
    neither step. *)
Theorem shared_relation_reported_by_neither_step :
  let X := externals (5, 5)%Q (document_of [relation_element 7]) in
  let W := collaborators "response" resolve_all in
  let prefs := only 1 [] in
  let step := (W, box_snwe, prefs) in
  ExtractRelationIds (Parse X) (Post W (formatRegionsRequest X prefs box_snwe))
  = Returned [7]%Z
  /\ LookupRelationInformation W [7]%Z = [info_of 7]
  /\ exists s', run X [step; step] StartFindRegions = Returned ([[]; []], s').
Proof.
  cbv zeta. split; [reflexivity|]. split; [reflexivity|].
  eexists. vm_compute. reflexivity.
Qed.

Lemma listed_ids_stay_unmarked_witness :
  let X := externals (5, 5)%Q (document_of [relation_element 7]) in
  let W := collaborators "response" resolve_all in
  let prefs := only 1 [] in
  exists s',
    IncrementalSearchHandler X W box_snwe prefs StartFindRegions = Returned ([], s')
    /\ processed s' = []
    /\ calls s' = [PostCall (formatRegionsRequest X prefs box_snwe)]
    /\ ~ In 7%Z (processed s').
Proof.
  intros X W prefs.
  assert (Hne : formatRegionsRequest X prefs box_snwe <> EmptyString)
    by (vm_compute; discriminate).
  destruct (listed_ids_stay_unmarked X W box_snwe prefs StartFindRegions 7%Z []
              eq_refl Hne eq_refl) as [s' (Hstep & Hp & Hc & Hout)].
  exists s'. split; [exact Hstep|]. split; [exact Hp|]. split; [exact Hc|].
  apply Hout; [now left|]. intros [].
Defined.

(** Relation 7, listed by the response and resolved by the geocoding
    collaborator, is unseen at the first step and unseen again at the
    second: the session ends with an empty [processed] after two posts and
    no lookup. *)
Example unmarked_id_is_unseen_again :
  let X := externals (5, 5)%Q (document_of [relation_element 7]) in
  let W := collaborators "response" resolve_all in
  let prefs := only 1 [] in
  let step := (W, box_snwe, prefs) in
  let request := formatRegionsRequest X prefs box_snwe in
  unseen [7]%Z (processed StartFindRegions) = [7]%Z
  /\ run X [step; step] StartFindRegions
     = Returned ([[]; []], mkSession [] [PostCall request; PostCall request]).
Proof. cbv zeta. split; [reflexivity|]. vm_compute. reflexivity. Qed.

(** The update with a collaborator that resolves 7 and not 9: both ids are
    in the processed set afterwards. *)
Example partly_resolved_ids_marked :
  lookupAndRecord (collaborators "response" (resolve_some (Z.eqb 7)))
    [7; 9]%Z (mkSession [3]%Z [])
  = Returned ([info_of 7], mkSession [3; 7; 9]%Z [LookupCall [7; 9]%Z]).
Proof. vm_compute. reflexivity. Qed.

End SearchEngineFacts.

(** ** More on CollectHistoricalRanges *)

Module OpenMeteoMore.
Import Chrono OpenMeteo ChronoFacts OpenMeteoFacts.

(** X1: on inputs within the range of std::chrono the first range
    returned is the most recent one.  It is the candidate anchored in the
    year of the latest date moved back [k] times; its end is the end of
    the candidate [k] calendar years earlier and is before the latest date
    in the order of year_month_day; and for every smaller number of years
    the end of the candidate that many calendar years earlier is not
    before the latest date. *)
Theorem first_window_is_most_recent dateRange latestDate numYears :
  within_chrono_range dateRange latestDate = true ->
  let first := anchor dateRange latestDate in
  exists out k,
    CollectHistoricalRanges dateRange latestDate numYears = Some out
    /\ hd_error out = Some (years_back k first)
    /\ snd (years_back k first) = snd (earlier (Z.of_nat k) first)
    /\ ymd_ltb (snd (earlier (Z.of_nat k) first)) latestDate = true
    /\ forall j, (j < k)%nat ->
         ymd_leb latestDate (snd (earlier (Z.of_nat j) first)) = true.
Proof.
  intros H first.
  destruct (run_within_range dateRange latestDate numYears H)
    as [k (Hrun & Hend & Hmin & Hyears)]. fold first in Hrun, Hend, Hmin, Hyears.
  eexists. exists k. split; [exact Hrun|].
  split; [apply collect_head; lia|].
  split; [apply Hyears, le_n|].
  split; [rewrite <- (Hyears k (le_n k)); exact Hend|].
  intros j Hj. rewrite <- (Hyears j) by lia. now apply Hmin.
Qed.

Lemma first_window_is_most_recent_witness :
  exists out,
    CollectHistoricalRanges (ymd 2023 9 1, ymd 2023 9 10) (ymd 2024 6 1) 2 = Some out
    /\ hd_error out = Some (ymd 2023 9 1, ymd 2023 9 10).
Proof.
  destruct (first_window_is_most_recent (ymd 2023 9 1, ymd 2023 9 10) (ymd 2024 6 1) 2
              eq_refl) as [out [k (Hrun & _)]].
  exists out. split; [exact Hrun|].
  vm_compute in Hrun. injection Hrun as <-. reflexivity.
Defined.

(** X2: on inputs within the range of std::chrono every range returned
    starts on the month and day of the input range and ends on the month
    and day of the anchored candidate; the range of index [i] has the year
    of the latest date and the year of the end of the candidate lowered by
    [k + i], the loop having turned [k] times, each kept in a short by
    wrapping around. *)
Theorem windows_keep_month_and_day dateRange latestDate numYears :
  within_chrono_range dateRange latestDate = true ->
  let first := anchor dateRange latestDate in
  exists out k,
    CollectHistoricalRanges dateRange latestDate numYears = Some out
    /\ forall i w, nth_error out i = Some w ->
         month (fst w) = month (fst dateRange)
         /\ day (fst w) = day (fst dateRange)
         /\ month (snd w) = month (snd first)
         /\ day (snd w) = day (snd first)
         /\ year (fst w) = to_short (year latestDate - Z.of_nat (k + i))
         /\ year (snd w) = to_short (year (snd first) - Z.of_nat (k + i)).
Proof.
  intros H first.
  destruct (anchor_in_short dateRange latestDate H) as [Hs He]. fold first in Hs, He.
  destruct (run_within_range dateRange latestDate numYears H) as [k (Hrun & _)].
  fold first in Hrun.
  eexists. exists k. split; [exact Hrun|].
  intros i w Hi. apply collect_nth_inv in Hi. destruct Hi as [_ ->].
  assert (Hf : fst first
               = ymd (year latestDate) (month (fst dateRange)) (day (fst dateRange)))
    by (unfold first; rewrite anchor_fields; reflexivity).
  rewrite years_back_add, (years_back_fields (k + i) first Hs He), Hf.
  repeat split.
Qed.

Lemma windows_keep_month_and_day_witness :
  exists out,
    CollectHistoricalRanges (ymd 2023 1 1, ymd 2023 1 10) (ymd 2024 6 1) 2 = Some out
    /\ List.length out = 2%nat.
Proof.
  destruct (windows_keep_month_and_day (ymd 2023 1 1, ymd 2023 1 10) (ymd 2024 6 1) 2
              eq_refl) as [out [k (Hrun & _)]].
  exists out. split; [exact Hrun|].
  vm_compute in Hrun. injection Hrun as <-. reflexivity.
Defined.

(** X3: on inputs within the range of std::chrono, when the candidate
    anchored in the year of the latest date already ends before the latest
    date, the loop does not turn: the first range returned is that
    candidate, it starts in the year of the latest date and spans the same
    number of days as the input range. *)
Theorem past_anchor_is_first_window dateRange latestDate numYears :
  within_chrono_range dateRange latestDate = true ->
  ymd_ltb (snd (anchor dateRange latestDate)) latestDate = true ->
  exists out,
    CollectHistoricalRanges dateRange latestDate numYears = Some out
    /\ hd_error out = Some (anchor dateRange latestDate)
    /\ year (fst (anchor dateRange latestDate)) = year latestDate
    /\ span (anchor dateRange latestDate) = span dateRange.
Proof.
  intros H Hpast. unfold CollectHistoricalRanges.
  destruct all_years as [|t] eqn:Ht; [discriminate (f_equal Z.of_nat Ht)|].
  cbn [go_back]. rewrite (ymd_ltb_leb _ _ Hpast).
  eexists. split; [reflexivity|].
  split; [apply collect_head; lia|].
  split; [rewrite anchor_fields; reflexivity|now apply anchor_span].
Qed.

Lemma past_anchor_is_first_window_witness :
  exists out,
    CollectHistoricalRanges (ymd 2023 1 1, ymd 2023 1 10) (ymd 2024 6 1) 3 = Some out
    /\ hd_error out = Some (ymd 2024 1 1, ymd 2024 1 10).
Proof.
  destruct (past_anchor_is_first_window (ymd 2023 1 1, ymd 2023 1 10) (ymd 2024 6 1) 3
              eq_refl eq_refl) as [out (Hrun & Hhd & _)].
  exists out. split; [exact Hrun|exact Hhd].
Defined.

End OpenMeteoMore.

(** ** More on the extractors *)

Module OverpassMore.
Import Json Overpass SearchEngine OverpassLoaders OverpassFacts.

Open Scope string_scope.

(** Looking a name up after an assignment. *)
Lemma find_map_assign m k v k' :
  find (map_assign m k v) k' = if String.eqb k k' then Some v else find m k'.
Proof.
  induction m as [|[k0 v0] m IH]; cbn [map_assign find].
  - reflexivity.
  - destruct (String.eqb_spec k0 k) as [->|Hne].
    + cbn [find]. destruct (String.eqb k k'); reflexivity.
    + cbn [find]. rewrite IH.
      destruct (String.eqb_spec k0 k') as [->|Hne'].
      * destruct (String.eqb_spec k k'); [congruence|reflexivity].
      * reflexivity.
Qed.

Lemma FindMember_app l1 l2 name :
  FindMember (l1 ++ l2)%list name
  = match FindMember l1 name with
    | Some v => Some v
    | None => FindMember l2 name
    end.
Proof.
  induction l1 as [|[k v] l1 IH]; cbn [FindMember app]; [reflexivity|].
  destruct (String.eqb k name); [reflexivity|exact IH].
Qed.

(** The inner loop: with string values only it returns, and a name then
    maps to its last value; with another value it fails. *)
Lemma copy_tags_spec members : forall acc,
  match copy_tags members acc with
  | Returned m =>
      forallb (fun kv => is_string (snd kv)) members = true
      /\ forall k, find m k
                   = match last_value members k with
                     | Some v => Some (GetString v)
                     | None => find acc k
                     end
  | AssertionFailed => forallb (fun kv => is_string (snd kv)) members = false
  end.
Proof.
  unfold last_value.
  induction members as [|[name value] rest IH]; intro acc; cbn [copy_tags].
  - split; reflexivity.
  - destruct value; cbn [Value_GetString obind forallb snd is_string andb]; try reflexivity.
    specialize (IH (map_assign acc name s)).
    destruct (copy_tags rest (map_assign acc name s)) as [m|]; [|exact IH].
    destruct IH as [Hall Hfind]. split; [exact Hall|].
    intro k. rewrite Hfind. cbn [rev]. rewrite FindMember_app. cbn [FindMember].
    destruct (FindMember (rev rest) k); [reflexivity|].
    rewrite find_map_assign. destruct (String.eqb name k); reflexivity.
Qed.

Lemma node_of_spec e :
  match node_of e with
  | Returned n =>
      string_tags e = true
      /\ lat n = GetDouble (Get e "lat")
      /\ lon n = GetDouble (Get e "lon")
      /\ forall k, find (tags n) k
                   = match last_value (tag_members e) k with
                     | Some v => Some (GetString v)
                     | None => None
                     end
  | AssertionFailed => string_tags e = false
  end.
Proof.
  unfold node_of, string_tags, tag_members.
  destruct (Get e "tags") as [| | | | | |members];
    try (cbn; repeat split; reflexivity).
  pose proof (copy_tags_spec members []) as H.
  destruct (copy_tags members []) as [m|]; cbn [obind]; [|exact H].
  destruct H as [Hall Hfind]. cbn [lat lon tags]. repeat split; try exact Hall.
  intro k. rewrite Hfind. reflexivity.
Qed.


(** The outer loop. *)
Lemma nodes_of_spec elements :
  match nodes_of elements with
  | Returned nodes =>
      (forall e, In e elements -> is_node e = true -> string_tags e = true)
      /\ map (fun n => (lat n, lon n)) nodes
         = map (fun e => (GetDouble (Get e "lat"), GetDouble (Get e "lon")))
             (filter is_node elements)
  | AssertionFailed =>
      exists e, In e elements /\ is_node e = true /\ string_tags e = false
  end.
Proof.
  induction elements as [|e rest IH]; cbn [nodes_of].
  - split; [intros e []|reflexivity].
  - fold (is_node e). cbn [filter]. destruct (is_node e) eqn:Hn; cbn [negb].
    + pose proof (node_of_spec e) as He.
      destruct (node_of e) as [n|]; cbn [obind].
      * destruct He as (Hs & Hlat & Hlon & _).
        destruct (nodes_of rest) as [ns|]; cbn [obind].
        -- destruct IH as [Hall Hmap]. split.
           ++ intros e' [<-|Hin] Hn'; [exact Hs|now apply Hall].
           ++ cbn [map]. now rewrite Hlat, Hlon, Hmap.
        -- destruct IH as [e' (Hin & Hn' & Hs')]. exists e'. split; [now right|tauto].
      * exists e. split; [now left|tauto].
    + destruct (nodes_of rest) as [ns|].
      * destruct IH as [Hall Hmap]. split; [|exact Hmap].
        intros e' [<-|Hin] Hn'; [congruence|now apply Hall].
      * destruct IH as [e' (Hin & Hn' & Hs')]. exists e'. split; [now right|tauto].
Qed.

Section WithParser.

Variable Parse : string -> Value.

Lemma ExtractNodes_elements json members elements :
  json <> EmptyString ->
  Parse json = kObject members ->
  FindMember members "elements" = Some (kArray elements) ->
  ExtractNodes Parse json = nodes_of elements.
Proof.
  intros Hne Hdoc Hel. unfold ExtractNodes.
  rewrite (is_empty_false _ Hne), Hdoc. cbn [IsObject negb member].
  rewrite Hel. reflexivity.
Qed.

(** X4: the empty text, and a text whose document is not an object (as
    after a parse error), give no ids and no nodes, and no assertion
    fails. *)
Theorem nothing_from_unusable_text json :
  json = EmptyString \/ IsObject (Parse json) = false ->
  ExtractRelationIds Parse json = Returned []
  /\ ExtractNodes Parse json = Returned [].
Proof.
  intros [->|H]; [split; reflexivity|].
  unfold ExtractRelationIds, ExtractNodes. rewrite H.
  destruct (is_empty json); split; reflexivity.
Qed.

(** X5: ExtractRelationIds fails an assertion exactly on a non-empty text
    whose document is an object without an "elements" array. *)
Theorem ExtractRelationIds_fails_exactly json :
  ExtractRelationIds Parse json = AssertionFailed
  <-> json <> EmptyString
      /\ exists members,
           Parse json = kObject members
           /\ forall items, FindMember members "elements" <> Some (kArray items).
Proof. apply ExtractRelationIds_asserts_iff. Qed.

(** X6: ExtractNodes fails an assertion exactly on a non-empty text whose
    document is an object that has no "elements" array, or whose
    "elements" array holds an element typed "node" with a tag value that is
    not a string. *)
Theorem ExtractNodes_asserts_iff json :
  ExtractNodes Parse json = AssertionFailed
  <-> json <> EmptyString
      /\ exists members,
           Parse json = kObject members
           /\ ((forall items, FindMember members "elements" <> Some (kArray items))
               \/ exists items e,
                    FindMember members "elements" = Some (kArray items)
                    /\ In e items /\ is_node e = true /\ string_tags e = false).
Proof.
  split.
  - unfold ExtractNodes.
    destruct json as [|c json]; cbn [is_empty]; [discriminate|].
    intro H. split; [discriminate|].
    destruct (Parse (String c json)) as [| | | | | |members]; cbn in H; try discriminate H.
    exists members. split; [reflexivity|].
    destruct (FindMember members "elements") as [v|]; [|left; discriminate].
    destruct v; cbn in H; try (left; discriminate).
    right. pose proof (nodes_of_spec items) as Hs. rewrite H in Hs.
    destruct Hs as [e He]. exists items, e. tauto.
  - intros [Hne [members [Hdoc [Hel|[items [e (Hel & Hin & Hn & Hs)]]]]]].
    + unfold ExtractNodes. rewrite (is_empty_false _ Hne), Hdoc. cbn [IsObject negb member].
      destruct (FindMember members "elements") as [v|]; [|reflexivity].
      destruct v; try reflexivity. now specialize (Hel items).
    + rewrite (ExtractNodes_elements json members items Hne Hdoc Hel).
      pose proof (nodes_of_spec items) as H.
      destruct (nodes_of items) as [nodes|]; [|reflexivity].
      destruct H as [Hall _]. rewrite (Hall e Hin Hn) in Hs. discriminate.
Qed.

(** X7: for a document with an "elements" array in which every element
    typed "node" has only string tag values, ExtractNodes returns one node
    for each element typed "node", in element order, with the coordinates
    of that element; the other elements are left out. *)
Theorem ExtractNodes_nodes json members elements :
  json <> EmptyString ->
  Parse json = kObject members ->
  FindMember members "elements" = Some (kArray elements) ->
  (forall e, In e elements -> is_node e = true -> string_tags e = true) ->
  exists nodes,
    ExtractNodes Parse json = Returned nodes
    /\ List.length nodes = List.length (filter is_node elements)
    /\ map (fun n => (lat n, lon n)) nodes
       = map (fun e => (GetDouble (Get e "lat"), GetDouble (Get e "lon")))
           (filter is_node elements).
Proof.
  intros Hne Hdoc Hel Hok.
  rewrite (ExtractNodes_elements json members elements Hne Hdoc Hel).
  pose proof (nodes_of_spec elements) as H.
  destruct (nodes_of elements) as [nodes|].
  - destruct H as [_ Hmap]. exists nodes. split; [reflexivity|]. split; [|exact Hmap].
    rewrite <- (length_map (fun n => (lat n, lon n)) nodes), Hmap. apply length_map.
  - destruct H as [e (Hin & Hn & Hs)]. rewrite (Hok e Hin Hn) in Hs. discriminate.
Qed.

End WithParser.

Lemma nothing_from_unusable_text_witness :
  ExtractRelationIds (fun _ => kNull) "<html>" = Returned []
  /\ ExtractNodes (fun _ => kNull) "<html>" = Returned [].
Proof.
  exact (nothing_from_unusable_text (fun _ => kNull) "<html>" (or_intror eq_refl)).
Defined.

Lemma ExtractNodes_nodes_witness :
  let node name :=
    kObject [("type", kString "node"); ("lat", kDouble 10.5); ("lon", kInt 20);
             ("tags", kObject [("tourism", kString "museum"); ("name", kString name)])] in
  let elements := [node "Louvre"; Scenario.relation_element 7; node "Orsay"] in
  exists nodes,
    ExtractNodes (fun _ => Scenario.document_of elements) "response" = Returned nodes
    /\ List.length nodes = 2%nat
    /\ map (fun n => (lat n, lon n)) nodes
       = [(10.5%Q, inject_Z 20); (10.5%Q, inject_Z 20)].
Proof.
  intros node elements.
  assert (Hne : "response" <> EmptyString) by discriminate.
  refine (ExtractNodes_nodes (fun _ => Scenario.document_of elements) "response"
            _ elements Hne eq_refl eq_refl _).
  intros e [<-|[<-|[<-|[]]]] H; reflexivity.
Defined.

End OverpassMore.

(** ** More on formatRegionsRequest *)

Module ComposerMore.
Import Json Overpass SearchEngine RequestParts Scenario SearchEngineFacts.

Open Scope string_scope.

Lemma append_assoc (a b c : string) : (a ++ b) ++ c = a ++ b ++ c.
Proof. induction a as [|x a IH]; cbn; [reflexivity|]. now rewrite IH. Qed.

Lemma append_nil_r (a : string) : a ++ EmptyString = a.
Proof. induction a as [|x a IH]; cbn; [reflexivity|]. now rewrite IH. Qed.

Lemma is_empty_append (a b : string) : is_empty (a ++ b) = is_empty a && is_empty b.
Proof. destruct a; reflexivity. Qed.

Lemma eqb_header (t : string) :
  String.eqb (sz_requestHeader ++ t) sz_requestHeader = is_empty t.
Proof. destruct t; reflexivity. Qed.

Lemma is_empty_subquery a0 a1 a2 a3 a4 :
  is_empty (requestRelationsByNodes a0 a1 a2 a3 a4) = false.
Proof.
  destruct (requestRelationsByNodes a0 a1 a2 a3 a4) eqn:H; [|reflexivity].
  now apply requestRelationsByNodes_not_empty in H.
Qed.

(** *** std::atoi on the text std::format writes for an int *)

Lemma digits_value_stop t v : no_digit_head t = true -> digits_value t v = v.
Proof.
  destruct t as [|c t]; cbn [no_digit_head digits_value]; [reflexivity|].
  destruct (digit_of c); [discriminate|reflexivity].
Qed.

Ltac read_digit :=
  cbn [digits_value];
  match goal with
  | |- context [digit_of ?c] =>
      let v := eval vm_compute in (digit_of c) in change (digit_of c) with v
  end;
  cbv beta iota.

Section Digits.

Variable t : string.
Hypothesis Ht : no_digit_head t = true.

Lemma digits_value_acc d : forall acc,
  digits_value (NilEmpty.string_of_uint d ++ t) (Z.pos acc)
  = Z.pos (Pos.of_uint_acc d acc).
Proof.
  induction d; intro acc; cbn [NilEmpty.string_of_uint append Pos.of_uint_acc];
    [now apply digits_value_stop|..];
    read_digit; rewrite <- IHd; f_equal; lia.
Qed.

Lemma digits_value_uint d :
  digits_value (NilEmpty.string_of_uint d ++ t) 0 = Z.of_N (Pos.of_uint d).
Proof.
  induction d; cbn [NilEmpty.string_of_uint append Pos.of_uint];
    [now apply digits_value_stop|..];
    read_digit; [exact IHd|..];
    match goal with
    | |- digits_value _ ?v = _ =>
        let p := eval vm_compute in v in change v with p
    end;
    rewrite digits_value_acc; reflexivity.
Qed.

Lemma written_number_uint d :
  d <> Decimal.Nil ->
  written_number (NilEmpty.string_of_uint d ++ t) = Z.of_N (Pos.of_uint d).
Proof.
  intro Hd. rewrite <- digits_value_uint.
  destruct d; [congruence|..]; reflexivity.
Qed.

Lemma to_uint_not_nil p : Pos.to_uint p <> Decimal.Nil.
Proof.
  intro H. pose proof (DecimalPos.Unsigned.of_to p) as Hp. rewrite H in Hp. discriminate.
Qed.

(** The number read in the decimal text of an integer, whatever
    non-digit text follows it. *)
Lemma written_number_format_int z : written_number (format_int z ++ t) = z.
Proof.
  unfold format_int. destruct z as [|p|p]; cbn [Z.to_int NilZero.string_of_int].
  - cbn [NilZero.string_of_uint NilEmpty.string_of_uint].
    change (written_number ("0" ++ t)) with (digits_value t 0).
    now apply digits_value_stop.
  - unfold NilZero.string_of_uint.
    destruct (Pos.to_uint p) eqn:Hu; [now apply to_uint_not_nil in Hu|..];
      rewrite <- Hu, written_number_uint, DecimalPos.Unsigned.of_to
        by apply to_uint_not_nil;
      reflexivity.
  - unfold NilZero.string_of_uint.
    assert (Hneg : forall s, written_number (String "-" s) = - digits_value s 0)
      by reflexivity.
    destruct (Pos.to_uint p) eqn:Hu; [now apply to_uint_not_nil in Hu|..];
      rewrite <- Hu; cbn [append];
      rewrite Hneg, digits_value_uint, DecimalPos.Unsigned.of_to; reflexivity.
Qed.

End Digits.

(** A number an int holds passes std::atoi unchanged. *)
Lemma to_int_to_long z : - 2 ^ 31 <= z < 2 ^ 31 -> to_int (to_long z) = z.
Proof.
  unfold to_int, to_long.
  change (2 ^ 63) with 9223372036854775808. change (2 ^ 32) with 4294967296.
  change (2 ^ 31) with 2147483648.
  intro H. rewrite Z.min_l, Z.max_r by lia. Z.div_mod_to_equations. lia.
Qed.

(** Reading back the decimal text of an int, whatever non-digit text
    follows it. *)
Lemma atoi_format_int t z :
  no_digit_head t = true -> - 2 ^ 31 <= z < 2 ^ 31 -> atoi (format_int z ++ t) = z.
Proof.
  intros Ht Hz. unfold atoi. rewrite (written_number_format_int t Ht z).
  now apply to_int_to_long.
Qed.

Lemma written_number_none s : no_number s = true -> written_number s = 0.
Proof.
  unfold no_number, written_number.
  destruct (skip_spaces s) as [|c rest]; [reflexivity|].
  destruct c as [[] [] [] [] [] [] [] []]; cbv beta iota; intro H;
    rewrite (digits_value_stop _ _ H); reflexivity.
Qed.

Lemma atoi_no_number s : no_number s = true -> atoi s = 0.
Proof. intro H. unfold atoi. rewrite (written_number_none s H). reflexivity. Qed.

(** A number beyond an int: the low 32 bits are kept. *)
Example atoi_beyond_int :
  atoi "99999999999" = 1215752191
  /\ atoi "2147483648" = -2147483648
  /\ atoi "99999999999999999999" = -1.
Proof. vm_compute. repeat split. Qed.

(** *** The shape of a request *)

Section Shape.

Variable X : Externals.

Lemma request_parts prefs boundingBox :
  formatRegionsRequest X prefs boundingBox
  = if is_empty (subqueries X prefs boundingBox) then EmptyString
    else sz_requestHeader ++ subqueries X prefs boundingBox
         ++ "rel" ++ labels X prefs ++ sz_requestFooter.
Proof.
  unfold formatRegionsRequest, subqueries, labels,
    airportsPart, peaksPart, seaBeachesPart, saltLakesPart.
  cbv zeta.
  set (bb := boundingBoxStr X boundingBox).
  destruct (has (objects prefs) (GEOGRAPHICAL_FEATURE_INTERNATIONAL_AIRPORTS X));
  destruct (has (objects prefs) (GEOGRAPHICAL_FEATURE_PEAKS X));
  destruct (find (properties prefs) "minPeakHeight") as [h|];
  destruct (has (objects prefs) (GEOGRAPHICAL_FEATURE_SEA_BEACHES X));
  destruct (has (objects prefs) (GEOGRAPHICAL_FEATURE_SALT_LAKES X));
  rewrite ?append_assoc, ?append_nil_r, ?eqb_header;
  change (EmptyString ++ ?s) with s;
  rewrite ?is_empty_append, ?is_empty_subquery; cbn [andb is_empty];
  reflexivity.
Qed.

Lemma is_empty_subqueries prefs boundingBox :
  is_empty (subqueries X prefs boundingBox)
  = negb (usable X prefs Airports || usable X prefs Peaks
          || usable X prefs SeaBeaches || usable X prefs SaltLakes).
Proof.
  unfold subqueries, usable, enabled, lacks_parameter, flag_of, required_property,
    airportsPart, peaksPart, seaBeachesPart, saltLakesPart.
  cbv zeta.
  destruct (has (objects prefs) (GEOGRAPHICAL_FEATURE_INTERNATIONAL_AIRPORTS X));
  destruct (has (objects prefs) (GEOGRAPHICAL_FEATURE_PEAKS X));
  destruct (find (properties prefs) "minPeakHeight") as [h|];
  destruct (has (objects prefs) (GEOGRAPHICAL_FEATURE_SEA_BEACHES X));
  destruct (has (objects prefs) (GEOGRAPHICAL_FEATURE_SALT_LAKES X));
  rewrite ?is_empty_append, ?is_empty_subquery; reflexivity.
Qed.

(** The request when the peaks sub-query is written with threshold [h]. *)
Lemma request_with_peaks prefs boundingBox itLength :
  enabled X prefs Peaks = true ->
  find (properties prefs) "minPeakHeight" = Some itLength ->
  let bbox := boundingBoxStr X boundingBox in
  formatRegionsRequest X prefs boundingBox
  = sz_requestHeader
    ++ (airportsPart X prefs bbox
        ++ requestRelationsByNodes (nodePeaksDef bbox (atoi itLength))
             ".nodesP" ".areasP" sz_regionsTags ".relP"
        ++ seaBeachesPart X prefs bbox ++ saltLakesPart X prefs bbox)
    ++ "rel" ++ labels X prefs ++ ";out tags;".
Proof.
  unfold enabled, flag_of. intros Hp Hf. cbv zeta.
  rewrite request_parts. unfold subqueries, peaksPart. rewrite Hp, Hf.
  rewrite !is_empty_append, is_empty_subquery, andb_false_r. reflexivity.
Qed.

(** X9: the shape of a request.  When no sub-query is written the request
    is empty; otherwise it is the header, the sub-queries of the
    categories in the order airports, peaks, sea beaches, salt lakes, then
    "rel" followed by one label for each bit set in the mask, and the
    footer ";out tags;". *)
Theorem request_shape prefs boundingBox :
  formatRegionsRequest X prefs boundingBox
  = if is_empty (subqueries X prefs boundingBox) then EmptyString
    else sz_requestHeader ++ subqueries X prefs boundingBox
         ++ "rel" ++ labels X prefs ++ sz_requestFooter.
Proof. exact (request_parts prefs boundingBox). Qed.

(** X10: the request is empty exactly when no category is usable, that
    is, enabled and with the property it needs. *)
Theorem request_empty_iff prefs boundingBox :
  formatRegionsRequest X prefs boundingBox = EmptyString
  <-> forall c, usable X prefs c = false.
Proof.
  rewrite request_parts, is_empty_subqueries.
  split.
  - intros H c.
    destruct (usable X prefs Airports) eqn:Ha; [discriminate H|].
    destruct (usable X prefs Peaks) eqn:Hp; [discriminate H|].
    destruct (usable X prefs SeaBeaches) eqn:Hs; [discriminate H|].
    destruct (usable X prefs SaltLakes) eqn:Hl; [discriminate H|].
    destruct c; assumption.
  - intro H. rewrite (H Airports), (H Peaks), (H SeaBeaches), (H SaltLakes). reflexivity.
Qed.

(** X11: a "minPeakHeight" property that is the decimal text of an int h
    (a number from -2^31 to 2^31 - 1), negative or not, followed by any
    text that does not start with a digit, puts the threshold h into the
    elevation filter of the peaks sub-query. *)
Theorem threshold_carried prefs boundingBox h t :
  enabled X prefs Peaks = true ->
  find (properties prefs) "minPeakHeight" = Some (format_int h ++ t) ->
  no_digit_head t = true ->
  - 2 ^ 31 <= h < 2 ^ 31 ->
  let bbox := boundingBoxStr X boundingBox in
  formatRegionsRequest X prefs boundingBox
  = sz_requestHeader
    ++ (airportsPart X prefs bbox
        ++ requestRelationsByNodes (nodePeaksDef bbox h)
             ".nodesP" ".areasP" sz_regionsTags ".relP"
        ++ seaBeachesPart X prefs bbox ++ saltLakesPart X prefs bbox)
    ++ "rel" ++ labels X prefs ++ ";out tags;".
Proof.
  intros Hp Hf Ht Hh. cbv zeta.
  rewrite (request_with_peaks prefs boundingBox _ Hp Hf), (atoi_format_int t h Ht Hh).
  reflexivity.
Qed.

(** X12: a "minPeakHeight" property in which std::atoi finds no number
    (no digit after the white space and an optional sign) does not switch
    the peaks sub-query off: it is written with the threshold 0. *)
Theorem threshold_zero_without_number prefs boundingBox itLength :
  enabled X prefs Peaks = true ->
  find (properties prefs) "minPeakHeight" = Some itLength ->
  no_number itLength = true ->
  let bbox := boundingBoxStr X boundingBox in
  formatRegionsRequest X prefs boundingBox
  = sz_requestHeader
    ++ (airportsPart X prefs bbox
        ++ requestRelationsByNodes (nodePeaksDef bbox 0)
             ".nodesP" ".areasP" sz_regionsTags ".relP"
        ++ seaBeachesPart X prefs bbox ++ saltLakesPart X prefs bbox)
    ++ "rel" ++ labels X prefs ++ ";out tags;".
Proof.
  intros Hp Hf Hn. cbv zeta.
  rewrite (request_with_peaks prefs boundingBox _ Hp Hf), (atoi_no_number _ Hn).
  reflexivity.
Qed.

(** X13: with peaks enabled and no "minPeakHeight" property the peaks
    sub-query is not written, yet a request that is written for other
    categories lists the peaks label [.relP] in its final segment. *)
Theorem peaks_label_listed_without_subquery prefs boundingBox :
  enabled X prefs Peaks = true ->
  find (properties prefs) "minPeakHeight" = None ->
  formatRegionsRequest X prefs boundingBox <> EmptyString ->
  let bbox := boundingBoxStr X boundingBox in
  formatRegionsRequest X prefs boundingBox
  = sz_requestHeader
    ++ (airportsPart X prefs bbox ++ seaBeachesPart X prefs bbox
        ++ saltLakesPart X prefs bbox)
    ++ "rel"
    ++ ((if enabled X prefs Airports then ".relA" else EmptyString)
        ++ ".relP"
        ++ (if enabled X prefs SeaBeaches then ".relS" else EmptyString)
        ++ (if enabled X prefs SaltLakes then ".relL" else EmptyString))
    ++ ";out tags;".
Proof.
  unfold enabled, flag_of. intros Hp Hf Hne. cbv zeta.
  rewrite request_parts in Hne |- *.
  destruct (is_empty (subqueries X prefs boundingBox)); [congruence|].
  unfold subqueries, labels, peaksPart. rewrite Hp, Hf. reflexivity.
Qed.

End Shape.

Lemma threshold_carried_witness :
  formatRegionsRequest (externals (5, 5)%Q kNull)
    (only 2 [("minPeakHeight", "-250 m")]) box_snwe
  = "[out:json][timeout:180];"
    ++ "node[natural=peak][name](10, 10, 10.5, 10.5)"
    ++ "(if: is_number(t[" ++ quoted "ele" ++ "]) && number(t[" ++ quoted "ele"
    ++ "]) > -250)"
    ++ " -> .nodesP;.nodesP is_in -> .areasP;"
    ++ "rel(pivot.areasP)[boundary=administrative][admin_level=4] -> .relP;"
    ++ "rel.relP;out tags;".
Proof.
  refine (threshold_carried (externals (5, 5)%Q kNull)
            (only 2 [("minPeakHeight", "-250 m")]) box_snwe (-250) " m"
            eq_refl eq_refl eq_refl _).
  split; [discriminate|reflexivity].
Defined.

Lemma threshold_zero_without_number_witness :
  formatRegionsRequest (externals (5, 5)%Q kNull)
    (only 2 [("minPeakHeight", "high")]) box_snwe
  = "[out:json][timeout:180];"
    ++ "node[natural=peak][name](10, 10, 10.5, 10.5)"
    ++ "(if: is_number(t[" ++ quoted "ele" ++ "]) && number(t[" ++ quoted "ele"
    ++ "]) > 0)"
    ++ " -> .nodesP;.nodesP is_in -> .areasP;"
    ++ "rel(pivot.areasP)[boundary=administrative][admin_level=4] -> .relP;"
    ++ "rel.relP;out tags;".
Proof.
  exact (threshold_zero_without_number (externals (5, 5)%Q kNull)
           (only 2 [("minPeakHeight", "high")]) box_snwe "high"
           eq_refl eq_refl eq_refl).
Defined.

Lemma peaks_label_listed_without_subquery_witness :
  formatRegionsRequest (externals (5, 5)%Q kNull) (only 6 []) box_snwe
  = "[out:json][timeout:180];"
    ++ "way[natural=coastline](10, 10, 10.5, 10.5) -> .coastlines;"
    ++ "node(around.coastlines:100)[natural=beach]"
    ++ " -> .nodesS;.nodesS is_in -> .areasS;"
    ++ "rel(pivot.areasS)[boundary=administrative][admin_level=4] -> .relS;"
    ++ "rel.relP.relS;out tags;".
Proof.
  refine (peaks_label_listed_without_subquery (externals (5, 5)%Q kNull) (only 6 [])
            box_snwe eq_refl eq_refl _).
  vm_compute. discriminate.
Defined.

End ComposerMore.

(** ** More on findRegions *)

Module RegionsMore.
Import Json Overpass SearchEngine Scenario SearchEngineFacts.

Open Scope string_scope.

Section Regions.

Variable X : Externals.

(** X14: the calls of a step.  A step that returns has made no call (the
    box was rejected or the request was empty), or one call, the post of
    the composed request (the response listed a relation, and no place is
    returned), or that post followed by one lookup of the empty id list
    (the response listed no relation, and the places returned are what the
    geocoding collaborator answers to the empty list). *)
Theorem step_calls W bbox prefs s out s' :
  IncrementalSearchHandler X W bbox prefs s = Returned (out, s') ->
  let request := formatRegionsRequest X prefs bbox in
  (calls s' = calls s /\ out = []
   /\ (isValidBoundingBox X bbox = false \/ request = EmptyString))
  \/ (calls s' = (calls s ++ [PostCall request])%list /\ out = []
      /\ isValidBoundingBox X bbox = true /\ request <> EmptyString
      /\ exists id ids,
           ExtractRelationIds (Parse X) (Post W request) = Returned (id :: ids))
  \/ (calls s' = (calls s ++ [PostCall request; LookupCall []])%list
      /\ out = map toGeoProtoPlace (LookupRelationInformation W [])
      /\ isValidBoundingBox X bbox = true /\ request <> EmptyString
      /\ ExtractRelationIds (Parse X) (Post W request) = Returned []).
Proof.
  unfold IncrementalSearchHandler, bind. rewrite findRegions_cases.
  destruct (isValidBoundingBox X bbox); cbn [negb].
  2:{ unfold ret. intro H. injection H as <- <-. left. auto. }
  cbv zeta.
  destruct (formatRegionsRequest X prefs bbox) as [|c r] eqn:Hr; cbn [is_empty].
  { unfold ret. intro H. injection H as <- <-. left. auto. }
  destruct (ExtractRelationIds _ _) as [[|id ids]|] eqn:He; [| |discriminate];
    unfold ret; intro H; injection H as <- <-; cbn [calls map].
  - right. right. rewrite <- app_assoc. repeat split; try reflexivity; discriminate.
  - right. left. repeat split; try reflexivity; try discriminate. eauto.
Qed.

(** X15: a step does not depend on the processed set.  std::sort and
    std::set_difference are reached with the empty id list only, so two
    sessions that differ in their processed sets alone get the same places
    from a step, make the same calls, and each keeps its set; and when the
    step fails an assertion in one it does in the other. *)
Theorem step_ignores_processed W bbox prefs p1 p2 c :
  match IncrementalSearchHandler X W bbox prefs (mkSession p1 c) with
  | Returned (out, s1) =>
      processed s1 = p1
      /\ IncrementalSearchHandler X W bbox prefs (mkSession p2 c)
         = Returned (out, mkSession p2 (calls s1))
  | AssertionFailed =>
      IncrementalSearchHandler X W bbox prefs (mkSession p2 c) = AssertionFailed
  end.
Proof.
  unfold IncrementalSearchHandler, bind. rewrite !findRegions_cases.
  destruct (negb (isValidBoundingBox X bbox)); [split; reflexivity|].
  cbv zeta. destruct (is_empty (formatRegionsRequest X prefs bbox)); [split; reflexivity|].
  destruct (ExtractRelationIds _ _) as [[|id ids]|]; [| |reflexivity];
    split; reflexivity.
Qed.

End Regions.

Lemma step_calls_witness :
  let X := externals (5, 5)%Q (document_of [node_element 3]) in
  let W := collaborators "response" resolve_all in
  let prefs := only 1 [] in
  exists out s',
    IncrementalSearchHandler X W box_snwe prefs StartFindRegions = Returned (out, s')
    /\ calls s' = [PostCall (formatRegionsRequest X prefs box_snwe); LookupCall []].
Proof.
  intros X W prefs.
  destruct (IncrementalSearchHandler X W box_snwe prefs StartFindRegions)
    as [[out s']|] eqn:Hstep; [|vm_compute in Hstep; discriminate Hstep].
  exists out, s'. split; [reflexivity|].
  destruct (step_calls X W box_snwe prefs StartFindRegions out s' Hstep)
    as [(_ & _ & [H|H])|[(_ & _ & _ & _ & id & ids & H)|(H & _)]].
  - vm_compute in H. discriminate H.
  - vm_compute in H. discriminate H.
  - vm_compute in H. discriminate H.
  - exact H.
Defined.

End RegionsMore.

(** ** The city search *)

Module CitiesFacts.
Import Json Overpass SearchEngine OverpassLoaders Cities Scenario MoreScenarios.
Import OverpassMore.

Open Scope string_scope.

(** X16: the feature findCities makes of a detail.  It has the position of
    the detail; its tags hold "tourism" with the tourism type, "name" and
    "name:en" exactly when the name and the English name are not empty,
    and no other name. *)
Theorem feature_tags_of_detail detail :
  let f := feature_of detail in
  position_latitude f = detail_latitude detail
  /\ position_longitude f = detail_longitude detail
  /\ find (feature_tags f) "tourism" = Some (tourism_type detail)
  /\ find (feature_tags f) "name"
     = (if is_empty (detail_name detail) then None else Some (detail_name detail))
  /\ find (feature_tags f) "name:en"
     = (if is_empty (name_en detail) then None else Some (name_en detail))
  /\ forall k, k <> "tourism" -> k <> "name" -> k <> "name:en" ->
               find (feature_tags f) k = None.
Proof.
  unfold feature_of. cbv zeta. cbn [position_latitude position_longitude feature_tags].
  split; [reflexivity|]. split; [reflexivity|].
  destruct (is_empty (detail_name detail)), (is_empty (name_en detail));
    cbn [negb];
    (split; [rewrite ?find_map_assign; reflexivity|]);
    (split; [rewrite ?find_map_assign; reflexivity|]);
    (split; [rewrite ?find_map_assign; reflexivity|]);
    intros k H1 H2 H3; rewrite ?find_map_assign;
    repeat match goal with
           | |- context [String.eqb ?a k] =>
               destruct (String.eqb_spec a k); [congruence|]
           end; reflexivity.
Qed.

Section WithServices.

Variable X : Externals.
Variable S : CityServices.

(** The loop of findCities: one city for each relation, in order, and one
    detail call for each when details are asked for. *)
Lemma cities_of_spec includeDetails infos : forall t,
  cities_of S includeDetails infos t
  = Returned (map (city_with S includeDetails) infos,
              (t ++ detail_calls includeDetails infos)%list).
Proof.
  induction infos as [|i rest IH]; intro t; cbn [cities_of].
  - unfold cret, detail_calls. destruct includeDetails; cbn [map]; now rewrite app_nil_r.
  - unfold city_of. unfold cbind, call, cret. unfold city_with, detail_calls in *.
    destruct includeDetails; cbv beta iota zeta; rewrite IH; cbn [map];
      rewrite <- ?app_assoc; reflexivity.
Qed.

(** X17: findCities on a non-empty id list.  It looks the ids up once with
    the given match mode, returns one city for each relation the lookup
    resolves, in the order of the lookup, and loads the details of each of
    these relations, one call each and in that order, exactly when details
    are asked for; without details the cities have no features. *)
Theorem findCities_result_and_calls relationIds match_ includeDetails t :
  relationIds <> [] ->
  let infos := LookupRelationInformationForCities S relationIds match_ in
  findCities S relationIds match_ includeDetails t
  = Returned (map (city_with S includeDetails) infos,
              (t ++ LookupForCities relationIds match_
                    :: detail_calls includeDetails infos)%list).
Proof.
  intros Hne infos. unfold findCities.
  destruct relationIds as [|id ids]; [congruence|]. cbn [empty].
  unfold cbind, call. rewrite cities_of_spec. rewrite <- app_assoc. reflexivity.
Qed.

(** X18: when the response to the by-name request lists no relation,
    FindCitiesByName returns no city and has made one call, the post of
    that request: the geocoding collaborator is not consulted. *)
Theorem no_relation_no_city_lookup name includeDetails t :
  ExtractRelationIds (Parse X) (OverpassResponse S (requestByName name)) = Returned [] ->
  FindCitiesByName X S name includeDetails t
  = Returned ([], (t ++ [OverpassPost (requestByName name)])%list).
Proof.
  intro H. unfold FindCitiesByName, LoadRelationIdsByName, Post, cbind, call, cret, clift.
  cbv zeta. rewrite H. reflexivity.
Qed.

(** X19: when the response to the by-position request lists relations,
    FindCitiesByPosition posts that request, looks the ids up with the
    match mode Best, and returns the cities of the relations resolved,
    with one detail call for each when details are asked for. *)
Theorem FindCitiesByPosition_found latitude longitude includeDetails t id ids :
  let request := requestByCoordinates (format_double X) latitude longitude in
  ExtractRelationIds (Parse X) (OverpassResponse S request) = Returned (id :: ids) ->
  let infos := LookupRelationInformationForCities S (id :: ids) Best in
  FindCitiesByPosition X S latitude longitude includeDetails t
  = Returned (map (city_with S includeDetails) infos,
              (t ++ OverpassPost request :: LookupForCities (id :: ids) Best
                    :: detail_calls includeDetails infos)%list).
Proof.
  intros request H infos.
  unfold FindCitiesByPosition, LoadRelationIdsByLocation, Post, cbind, call, cret, clift.
  cbv beta iota zeta. fold request. rewrite H.
  unfold findCities. cbn [empty]. unfold cbind, call. rewrite cities_of_spec.
  rewrite <- !app_assoc. reflexivity.
Qed.

(** X20: an empty response, the sign of a failed transport, makes each
    loader return nothing after its one post. *)
Theorem loaders_on_empty_response name latitude longitude relationId t :
  (OverpassResponse S (requestByName name) = EmptyString ->
   LoadRelationIdsByName X S name t
   = Returned ([], (t ++ [OverpassPost (requestByName name)])%list))
  /\ (OverpassResponse S (requestByCoordinates (format_double X) latitude longitude)
      = EmptyString ->
      LoadRelationIdsByLocation X S latitude longitude t
      = Returned ([], (t ++ [OverpassPost
                               (requestByCoordinates (format_double X)
                                  latitude longitude)])%list))
  /\ (OverpassResponse S (requestTourismNodes relationId) = EmptyString ->
      LoadTourismNodesForRelation X S relationId t
      = Returned ([], (t ++ [OverpassPost (requestTourismNodes relationId)])%list)).
Proof.
  unfold LoadRelationIdsByName, LoadRelationIdsByLocation, LoadTourismNodesForRelation,
    Post, cbind, call, cret, clift.
  cbv beta iota zeta.
  repeat split; intros ->; reflexivity.
Qed.

End WithServices.

Lemma findCities_result_and_calls_witness :
  findCities city_services [7; 9]%Z Any true []
  = Returned (map (city_with city_services true) [info_of 7; info_of 9],
              [LookupForCities [7; 9]%Z Any; CityDetails 7; CityDetails 9]).
Proof.
  refine (findCities_result_and_calls city_services [7; 9]%Z Any true [] _).
  discriminate.
Defined.

Lemma no_relation_no_city_lookup_witness :
  FindCitiesByName (externals (5, 5)%Q (document_of [node_element 3]))
    city_services "Paris" true []
  = Returned ([], [OverpassPost (requestByName "Paris")]).
Proof.
  exact (no_relation_no_city_lookup
           (externals (5, 5)%Q (document_of [node_element 3]))
           city_services "Paris" true [] eq_refl).
Defined.

Lemma FindCitiesByPosition_found_witness :
  let X := externals (5, 5)%Q (document_of [relation_element 7; relation_element 9]) in
  FindCitiesByPosition X city_services 48.5 2.25 true []
  = Returned ([city_with city_services true (info_of 7)],
              [OverpassPost (requestByCoordinates format_fixed 48.5 2.25);
               LookupForCities [7; 9]%Z Best; CityDetails 7]).
Proof.
  intro X.
  exact (FindCitiesByPosition_found X city_services 48.5 2.25 true [] 7%Z [9]%Z eq_refl).
Defined.

End CitiesFacts.

(** ** The weather response *)

Module WeatherFacts.
Import Chrono OpenMeteo Json Overpass Weather Scenario MoreScenarios.

Open Scope string_scope.

Section WithExternals.

Variable X : MeteoExternals.

Lemma parse_arrays response ts maxs mins :
  daily (meteo_Parse X response) "time" = kArray ts ->
  daily (meteo_Parse X response) "temperature_2m_max" = kArray maxs ->
  daily (meteo_Parse X response) "temperature_2m_min" = kArray mins ->
  parseWeatherResponse X response
  = if negb (Nat.eqb (List.length maxs) (List.length ts))
       || negb (Nat.eqb (List.length mins) (List.length ts))
    then Returned []
    else Returned (map (info_at X ts maxs mins) (seq 0 (List.length ts))).
Proof.
  unfold parseWeatherResponse, daily. intros -> -> ->. reflexivity.
Qed.

(** X21: parseWeatherResponse fails an assertion exactly when one of the
    three values "time", "temperature_2m_max", "temperature_2m_min" under
    "daily" is not an array, as in a document without "daily" or after a
    parse error. *)
Theorem parseWeatherResponse_asserts_iff response :
  parseWeatherResponse X response = AssertionFailed
  <-> let document := meteo_Parse X response in
      GetArray (daily document "time") = AssertionFailed
      \/ GetArray (daily document "temperature_2m_max") = AssertionFailed
      \/ GetArray (daily document "temperature_2m_min") = AssertionFailed.
Proof.
  unfold parseWeatherResponse, daily. cbv zeta.
  destruct (GetArray (Get (Get (meteo_Parse X response) "daily") "time")) as [ts|];
    cbn [obind]; [|tauto].
  destruct (GetArray (Get (Get (meteo_Parse X response) "daily") "temperature_2m_max"))
    as [maxs|]; cbn [obind]; [|tauto].
  destruct (GetArray (Get (Get (meteo_Parse X response) "daily") "temperature_2m_min"))
    as [mins|]; cbn [obind]; [|tauto].
  destruct (negb _ || negb _); split; try discriminate; intros [H|[H|H]]; discriminate.
Qed.

(** X22: when the three arrays do not have one length, the result is
    empty, whatever the arrays hold. *)
Theorem parseWeatherResponse_length_mismatch response ts maxs mins :
  daily (meteo_Parse X response) "time" = kArray ts ->
  daily (meteo_Parse X response) "temperature_2m_max" = kArray maxs ->
  daily (meteo_Parse X response) "temperature_2m_min" = kArray mins ->
  List.length maxs <> List.length ts \/ List.length mins <> List.length ts ->
  parseWeatherResponse X response = Returned [].
Proof.
  intros Ht Hmax Hmin Hlen. rewrite (parse_arrays _ _ _ _ Ht Hmax Hmin).
  destruct Hlen as [H|H]; apply Nat.eqb_neq in H; rewrite H; cbn [negb orb];
    [reflexivity|]. now rewrite orb_true_r.
Qed.



End WithExternals.

Lemma parseWeatherResponse_length_mismatch_witness :
  parseWeatherResponse
    (meteo_externals
       (weather_document [kString "2024-01-01"; kString "2024-01-02"]
          [kDouble 5] [kDouble 1; kDouble 2])
       "response")
    "response"
  = Returned [].
Proof.
  refine (parseWeatherResponse_length_mismatch
            (meteo_externals
               (weather_document [kString "2024-01-01"; kString "2024-01-02"]
                  [kDouble 5] [kDouble 1; kDouble 2])
               "response")
            "response"
            [kString "2024-01-01"; kString "2024-01-02"] [kDouble 5]
            [kDouble 1; kDouble 2] eq_refl eq_refl eq_refl _).
  left. discriminate.
Defined.



End WeatherFacts.
